(** * Indicator and backtest engine of the ML service (ml-svc/app.py)

    A shallow embedding of the numerical core of [ml-svc/app.py]: the rolling
    indicators [_sma], [_ema] and [_rsi], the feature extractor [features],
    the direction heuristic [predict], the backtest engine
    ([_backtest_ma_crossover] and the momentum branch of [backtest]) and the
    walk-forward evaluator [walkforward].

    Conventions of the embedding.
    - A Python [float] is an exact rational ([Q]); values are compared with
      [==] ([Qeq]).  Rounding, overflow and NaN are outside the model.
    - A Python [int] is a [Z]; [len] is [py_len].
    - A Python exception is [None] in the [option] monad: every [/] of the
      source is [py_truediv], which fails on a zero divisor as Python does
      (ZeroDivisionError); [//] is [py_floordiv]; an index out of range is a
      failed list lookup.
    - A [for] loop is [py_for] over the iterated list, threading the
      variables the loop body assigns.
    - [math.sqrt] and the square root inside [statistics.pstdev] are a
      parameter [sqrt] of the service; the history provider behind
      [_get_history] is a parameter [fetch]. *)

From Stdlib Require Import ZArith QArith Qabs Lia Lqa.
From stdpp Require Import base option list gmap strings.

Open Scope Q_scope.

(** ** Python arithmetic and sequences *)

Module Py.

(** [a < b] on floats. *)
Definition ltb (a b : Q) : bool := negb (Qle_bool b a).

(** [a / b]: ZeroDivisionError when [b] is zero. *)
Definition py_truediv (a b : Q) : option Q :=
  if Qeq_bool b 0 then None else Some (a / b).

(** [a // b] on ints: floor division, ZeroDivisionError when [b] is zero. *)
Definition py_floordiv (a b : Z) : option Z :=
  if (b =? 0)%Z then None else Some (a / b)%Z.

(** [a or d] on floats: [a] unless it is falsy, that is zero. *)
Definition py_or (a d : Q) : Q := if Qeq_bool a 0 then d else a.

(** [max(a, b)] and [min(a, b)]: the first argument is kept unless the second
    is strictly larger (smaller). *)
Definition py_max (a b : Q) : Q := if ltb a b then b else a.
Definition py_min (a b : Q) : Q := if ltb b a then b else a.

(** [sum(l)]: left to right from 0. *)
Definition py_sum (l : list Q) : Q := fold_left Qplus l 0.

Definition py_len {A} (l : list A) : Z := Z.of_nat (length l).

(** Normalisation of a slice bound against a length [n]. *)
Definition slice_bound (n k : Z) : nat :=
  Z.to_nat (if (k <? 0)%Z then Z.max 0 (n + k) else Z.min k n).

(** [l[k:]] *)
Definition py_slice_from {A} (k : Z) (l : list A) : list A :=
  drop (slice_bound (py_len l) k) l.

(** [l[lo:hi]] *)
Definition py_slice {A} (lo hi : Z) (l : list A) : list A :=
  let a := slice_bound (py_len l) lo in
  let b := slice_bound (py_len l) hi in
  take (b - a) (drop a l).

(** [for x in xs: body], threading the loop variables [st]. *)
Fixpoint py_for {A S} (body : S -> A -> option S) (xs : list A) (st : S)
  : option S :=
  match xs with
  | [] => Some st
  | x :: xs' =>
      match body st x with
      | Some st' => py_for body xs' st'
      | None => None
      end
  end.

(** [range(a, b)] *)
Definition py_range (a b : nat) : list nat := seq a (b - a).

End Py.
Import Py.

(** ** Indicator library *)

(** One iteration of the loop of [_sma]: [out], the running sum [s] and the
    buffer [q]. *)
Definition sma_body (n : Z) (st : list Q * Q * list Q) (v : Q)
  : option (list Q * Q * list Q) :=
  let '(out, s, q) := st in
  let q := q ++ [v] in
  let s := s + v in
  '(s, q) ← (if (py_len q >? n)%Z
             then match q with
                  | x :: q' => Some (s - x, q')
                  | [] => None
                  end
             else Some (s, q));
  m ← py_truediv s (inject_Z (py_len q));
  Some (out ++ [m], s, q).

Definition _sma (arr : list Q) (n : Z) : option (list Q) :=
  '(out, _, _) ← py_for (sma_body n) arr ([], 0, []);
  Some out.

(** The value of [_rsi] at a point with a full window, from [ag] to [rsi]. *)
Definition rsi_value (n : Z) (gains losses : list Q) : option Q :=
  ag ← py_truediv (py_sum (py_slice_from (- n) gains)) (inject_Z n);
  al ← py_truediv (py_sum (py_slice_from (- n) losses)) (inject_Z n);
  rs ← (if negb (Qeq_bool al 0) then py_truediv ag al else Some 0);
  d ← py_truediv 100 (1 + rs);
  Some (100 - d).

(** One iteration of the loop of [_rsi]: [gains], [losses], [rsis], [prev]. *)
Definition rsi_body (n : Z)
    (st : list Q * list Q * list Q * option Q) (v : Q)
  : option (list Q * list Q * list Q * option Q) :=
  let '(gains, losses, rsis, prev) := st in
  let '(gains, losses) :=
    match prev with
    | None => (gains ++ [0], losses ++ [0])
    | Some p =>
        let ch := v - p in
        (gains ++ [py_max 0 ch], losses ++ [py_max 0 (- ch)])
    end in
  let prev := Some v in
  if (py_len gains <? n)%Z then Some (gains, losses, rsis ++ [50], prev)
  else
    rsi ← rsi_value n gains losses;
    Some (gains, losses, rsis ++ [rsi], prev).

Definition _rsi (arr : list Q) (n : Z) : option (list Q) :=
  '(_, _, rsis, _) ← py_for (rsi_body n) arr ([], [], [], None);
  Some rsis.

(** ** The indicators as the specification words them *)

(** The last [k] points of [l] (all of [l] when it has fewer). *)
Definition trailing {A} (k : nat) (l : list A) : list A :=
  drop (length l - k) l.

(** Arithmetic mean. *)
Definition mean (l : list Q) : Q := py_sum l / inject_Z (py_len l).

(** "For index i, value = mean of the last min(i+1, window) points." *)
Definition sma_spec (arr : list Q) (window i : nat) : Q :=
  mean (trailing (Nat.min (i + 1) window) (take (i + 1) arr)).

(** ** Backtest engine *)

Record Metrics := { sharpe : Q; maxdd : Q }.

Record BacktestConfig := {
  symbols : list string;
  start : option string;
  end_ : option string;
  strategy : string;
  params : gmap string Z
}.

(** The [data] object of the response of [backtest]; [bt_metrics] is [None]
    for the empty mapping. *)
Record BacktestResult := {
  bt_id : string;
  bt_status : string;
  bt_metrics : option Metrics;
  bt_equity : list Q
}.

(** The [data] object of the response of [predict]. *)
Record Prediction := {
  pr_symbol : string;
  pr_horizon : Z;
  pr_prediction : option Q;
  pr_confidence : Q;
  pr_note : option string;
  pr_model : option string
}.

Record Fold := {
  fold : Z;
  fold_start : Z;
  fold_end : Z;
  fold_metrics : Metrics
}.

(** The [data] object of the response of [walkforward]. *)
Record WalkForward := {
  folds : list Fold;
  avg_sharpe : Q;
  avg_maxdd : Q
}.

Section Service.

(** [math.sqrt], also used for the root inside [statistics.pstdev]. *)
Variable sqrt : Q -> Q.

(** The history provider: the closes of a symbol, oldest first, or [None]
    when the request or its decoding raises. *)
Variable fetch : string -> option (list Q).

Definition _get_history (symbol : string) (days : Z) : list Q :=
  match fetch symbol with
  | Some data => py_slice_from (- days) data
  | None => []
  end.

(** [(closes[i] - closes[i-k]) / (closes[i-k] or 1)] *)
Definition rel_change (closes : list Q) (i k : nat) : option Q :=
  c ← closes !! i;
  p ← closes !! (i - k)%nat;
  py_truediv (c - p) (py_or p 1).

(** [equity.append(equity[-1] * (1 + pos * r))] *)
Definition equity_append (equity : list Q) (pos : Z) (r : Q)
  : option (list Q) :=
  e ← last equity;
  Some (equity ++ [e * (1 + inject_Z pos * r)]).

(** [[equity[i]/equity[i-1]-1 for i in range(1,len(equity))]] *)
Definition curve_returns (equity : list Q) : option (list Q) :=
  mapM (λ i : nat,
          a ← equity !! i;
          b ← equity !! (i - 1)%nat;
          d ← py_truediv a b;
          Some (d - 1))
       (py_range 1 (length equity)).

Definition statistics_mean (l : list Q) : option Q :=
  py_truediv (py_sum l) (inject_Z (py_len l)).

Definition statistics_pstdev (l : list Q) : option Q :=
  mu ← statistics_mean l;
  var ← py_truediv (py_sum (map (λ x, (x - mu) * (x - mu)) l))
                   (inject_Z (py_len l));
  Some (sqrt var).

(** [(mean(returns) / (pstdev(returns) or 1e-9)) * sqrt(252) if returns
    else 0.0] *)
Definition sharpe_ratio (returns : list Q) : option Q :=
  match returns with
  | [] => Some 0
  | _ =>
      mu ← statistics_mean returns;
      sd ← statistics_pstdev returns;
      d ← py_truediv mu (py_or sd 0.000000001);
      Some (d * sqrt 252)
  end.

(** One iteration of the drawdown loop: [peak], [maxdd]. *)
Definition drawdown_body (st : Q * Q) (v : Q) : option (Q * Q) :=
  let '(peak, maxdd) := st in
  let peak := py_max peak v in
  d ← py_truediv v peak;
  let dd := d - 1 in
  Some (peak, py_min maxdd dd).

Definition max_drawdown (peak : Q) (equity : list Q) : option Q :=
  '(_, maxdd) ← py_for drawdown_body equity (peak, 0);
  Some maxdd.

(** One iteration of the equity loop of [_backtest_ma_crossover]: [pos],
    [equity]. *)
Definition ma_body (closes fasts slows : list Q) (st : Z * list Q) (i : nat)
  : option (Z * list Q) :=
  let '(pos, equity) := st in
  f ← fasts !! i;
  s ← slows !! i;
  let pos := if Qle_bool s f then 1%Z else 0%Z in
  r ← rel_change closes i 1;
  equity ← equity_append equity pos r;
  Some (pos, equity).

Definition _backtest_ma_crossover (closes : list Q) (fast slow : Z)
  : option (list Q * Metrics) :=
  fasts ← _sma closes fast;
  slows ← _sma closes slow;
  '(_, equity) ← py_for (ma_body closes fasts slows)
                        (py_range 1 (length closes)) (0%Z, [1]);
  returns ← curve_returns equity;
  sharpe ← sharpe_ratio returns;
  peak ← equity !! 0%nat;
  maxdd ← max_drawdown peak equity;
  Some (equity, {| sharpe := sharpe; maxdd := maxdd |}).

(** [[(closes[i]-closes[i-20])/(closes[i-20] or 1) if i>=20 else 0 for i in
    range(len(closes))]] *)
Definition momentum_signal (closes : list Q) : option (list Q) :=
  mapM (λ i : nat, if (20 <=? i)%nat then rel_change closes i 20 else Some 0)
       (py_range 0 (length closes)).

(** One iteration of the equity loop of the momentum branch. *)
Definition momentum_body (closes mom : list Q) (st : Z * list Q) (i : nat)
  : option (Z * list Q) :=
  let '(pos, equity) := st in
  m ← mom !! i;
  let pos := if ltb 0 m then 1%Z else 0%Z in
  r ← rel_change closes i 1;
  equity ← equity_append equity pos r;
  Some (pos, equity).

(** The momentum branch of [backtest], from [mom] to [metrics]. *)
Definition backtest_momentum (closes : list Q) : option (list Q * Metrics) :=
  mom ← momentum_signal closes;
  '(_, equity) ← py_for (momentum_body closes mom)
                        (py_range 1 (length closes)) (0%Z, [1]);
  returns ← curve_returns equity;
  sharpe ← sharpe_ratio returns;
  maxdd ← max_drawdown 1 equity;
  Some (equity, {| sharpe := sharpe; maxdd := maxdd |}).

Definition bt_empty : BacktestResult :=
  {| bt_id := "bt-0001"; bt_status := "done";
     bt_metrics := None; bt_equity := [] |}.

Definition bt_done (r : list Q * Metrics) : BacktestResult :=
  {| bt_id := "bt-0001"; bt_status := "done";
     bt_metrics := Some r.2; bt_equity := r.1 |}.

Definition backtest (cfg : BacktestConfig) : option BacktestResult :=
  match symbols cfg with
  | [] => Some bt_empty
  | symbol :: _ =>
      let closes := _get_history symbol 400 in
      match closes with
      | [] => Some bt_empty
      | _ =>
          if String.eqb (strategy cfg) "momentum" then
            r ← backtest_momentum closes;
            Some (bt_done r)
          else
            r ← _backtest_ma_crossover closes
                  (default 20%Z (params cfg !! "fast"))
                  (default 50%Z (params cfg !! "slow"));
            Some (bt_done r)
      end
  end.

(** ** Direction heuristic *)

Definition predict (symbol : string) (horizon : Z) : option Prediction :=
  let closes := _get_history symbol 200 in
  match closes with
  | [] =>
      Some {| pr_symbol := symbol; pr_horizon := horizon;
              pr_prediction := None; pr_confidence := 0;
              pr_note := Some "no history"; pr_model := None |}
  | _ =>
      s20 ← _sma closes 20 ≫= last;
      s50 ← _sma closes 50 ≫= last;
      let direction := if Qle_bool s50 s20 then 1%Z else (-1)%Z in
      c ← last closes;
      let pred :=
        c * (1 + 0.002 * inject_Z direction
                 * inject_Z (Z.max 1 (Z.min 5 horizon))) in
      let conf := if (direction =? 1)%Z then 0.55 else 0.45 in
      Some {| pr_symbol := symbol; pr_horizon := horizon;
              pr_prediction := Some pred; pr_confidence := conf;
              pr_note := None; pr_model := Some "sma_crossover" |}
  end.

(** ** Walk-forward evaluator *)

Definition wf_empty : WalkForward :=
  {| folds := []; avg_sharpe := 0; avg_maxdd := 0 |}.

(** One iteration of the fold loop: [results]. *)
Definition wf_body (closes : list Q) (n fold_size fast slow : Z)
    (results : list Fold) (i : nat) : option (list Fold) :=
  let start := (Z.of_nat i * fold_size)%Z in
  let end_ := Z.min n ((Z.of_nat i + 1) * fold_size) in
  if (end_ - start <? slow + 5)%Z then Some results
  else
    let seg := py_slice start end_ closes in
    '(_, met) ← _backtest_ma_crossover seg fast slow;
    Some (results ++ [{| fold := Z.of_nat i + 1; fold_start := start;
                         fold_end := end_; fold_metrics := met |}]).

(** [walkforward] from the length test on, for the history [closes]. *)
Definition walkforward_on (closes : list Q) (k fast slow : Z)
  : option WalkForward :=
  if (py_len closes <? slow + 50)%Z then Some wf_empty
  else
    let n := py_len closes in
    q ← py_floordiv n k;
    let fold_size := Z.max 50 q in
    results ← py_for (wf_body closes n fold_size fast slow)
                     (py_range 0 (Z.to_nat k)) [];
    match results with
    | [] => Some wf_empty
    | _ =>
        s ← py_truediv (py_sum (map (λ r, sharpe (fold_metrics r)) results))
                       (inject_Z (py_len results));
        m ← py_truediv (py_sum (map (λ r, maxdd (fold_metrics r)) results))
                       (inject_Z (py_len results));
        Some {| folds := results; avg_sharpe := s; avg_maxdd := m |}
    end.

Definition walkforward (symbol : string) (k fast slow : Z)
  : option WalkForward :=
  walkforward_on (_get_history symbol 800) k fast slow.

End Service.

(** A rational stand-in for [math.sqrt], for running the service on examples:
    the integer square root at six decimals. *)
Definition approx_sqrt (x : Q) : Q :=
  Z.sqrt (Qnum x * 1000000000000 / Z.pos (Qden x)) # 1000000.

(** ** Exponential average and feature extraction *)

(** One iteration of the loop of [_ema]: [out], [ema]. *)
Definition ema_body (k : Q) (st : list Q * option Q) (v : Q)
  : option (list Q * option Q) :=
  let '(out, ema) := st in
  let ema := match ema with
             | None => v
             | Some e => (v - e) * k + e
             end in
  Some (out ++ [ema], Some ema).

Definition _ema (arr : list Q) (n : Z) : option (list Q) :=
  k ← py_truediv 2 (inject_Z (n + 1));
  '(out, _) ← py_for (ema_body k) arr ([], None);
  Some out.

(** [l[i]]: a negative index counts from the end; IndexError out of range. *)
Definition py_index {A} (l : list A) (i : Z) : option A :=
  let j := if (i <? 0)%Z then (py_len l + i)%Z else i in
  if (j <? 0)%Z then None else l !! Z.to_nat j.

(** The [features] mapping of the response of [features]. *)
Record FeatureSet := {
  ret1 : Q;
  ret5 : Q;
  ret20 : Q;
  vol : Q;
  sma20 : Q;
  ema50 : Q;
  momentum : Q;
  rsi : Q
}.

(** The [data] object of the response of [features]. *)
Record Features := {
  ft_symbol : string;
  ft_days : Z;
  ft_features : option FeatureSet;
  ft_note : option string
}.

Section FeatureExtractor.

Variable sqrt : Q -> Q.
Variable fetch : string -> option (list Q).

(** [[0.0]*k + [(closes[i]-closes[i-k])/(closes[i-k] or 1) for i in
    range(k,len(closes))]] *)
Definition returns_over (closes : list Q) (k : nat) : option (list Q) :=
  rest ← mapM (λ i : nat, rel_change closes i k)
              (py_range k (length closes));
  Some (replicate k 0 ++ rest).

Definition features (symbol : string) (days : Z) : option Features :=
  let closes := _get_history fetch symbol (Z.max 60 (days + 60)) in
  match closes with
  | [] =>
      Some {| ft_symbol := symbol; ft_days := days;
              ft_features := None; ft_note := Some "no history" |}
  | _ =>
      r1 ← returns_over closes 1;
      r5 ← returns_over closes 5;
      r20 ← returns_over closes 20;
      vol ← (if (days <=? py_len r1)%Z
             then statistics_pstdev sqrt (py_slice_from (- days) r1)
             else statistics_pstdev sqrt r1);
      sma20 ← _sma closes 20 ≫= last;
      ema50 ← _ema closes 50 ≫= last;
      c ← py_index closes (-1);
      p ← py_index closes (- Z.min (py_len closes) 20);
      mom ← py_truediv (c - p) (py_or p 1);
      rsi ← _rsi closes 14 ≫= last;
      x1 ← last r1;
      x5 ← last r5;
      x20 ← last r20;
      Some {| ft_symbol := symbol; ft_days := days;
              ft_features :=
                Some {| ret1 := x1; ret5 := x5; ret20 := x20; vol := vol;
                        sma20 := sma20; ema50 := ema50; momentum := mom;
                        rsi := rsi |};
              ft_note := None |}
  end.

End FeatureExtractor.

(** ** Specification vocabulary and loop invariants *)

(** "Clamped to [lo, hi]". *)
Definition clamp (lo hi x : Z) : Z :=
  if (x <? lo)%Z then lo else if (hi <? x)%Z then hi else x.

(** The latest value of SMA(window): the mean of the last
    min(length, window) closes. *)
Definition latest_sma (closes : list Q) (window : nat) : Q :=
  sma_spec closes window (length closes - 1).

(** Each entry is at least the previous one. *)
Fixpoint nondecreasing (l : list Q) : Prop :=
  match l with
  | x :: (y :: _) as t => x <= y /\ nondecreasing t
  | _ => True
  end.


(** A loop body that appends one value to the curve at each bar. *)
Definition appends {A} (body : Z * list Q -> A -> option (Z * list Q)) : Prop :=
  forall st i st', body st i = Some st' -> exists x, st'.2 = st.2 ++ [x].

(** The loop variables of [_sma] after the points [p]. *)
Definition sma_inv (n : Z) (p : list Q) (st : list Q * Q * list Q) : Prop :=
  let '(out, s, q) := st in
  q = trailing (Z.to_nat n) p /\
  s == py_sum q /\
  length out = length p /\
  forall i, (i < length p)%nat ->
    exists x, out !! i = Some x /\ x == sma_spec p (Z.to_nat n) i.


(** The value of [_rsi] on a flat series: neutral during the warm-up, then
    the zero that the guard on a zero mean loss produces. *)
Definition rsi_flat (n : Z) (i : nat) : Q :=
  if (Z.of_nat i + 1 <? n)%Z then 50 else 0.

(** The loop variables of [_rsi] after [k] points of a flat series at [c]. *)
Definition rsi_flat_inv (n : Z) (c : Q) (k : nat)
    (st : list Q * list Q * list Q * option Q) : Prop :=
  let '(gains, losses, rsis, prev) := st in
  gains = replicate k 0 /\ losses = replicate k 0 /\
  prev = (if k is O then None else Some c) /\
  length rsis = k /\
  forall i, (i < k)%nat -> exists x, rsis !! i = Some x /\ x == rsi_flat n i.

(** A reported fold is one of the [k] spans of the partition. *)
Definition fold_span (closes : list Q) (k fold_size : Z) (f : Fold) : Prop :=
  exists i : nat,
    (Z.of_nat i < k)%Z /\ fold f = (Z.of_nat i + 1)%Z /\
    fold_start f = (Z.of_nat i * fold_size)%Z /\
    fold_end f = Z.min (py_len closes) ((Z.of_nat i + 1) * fold_size).

(** ** Example inputs *)

(** The history provider that serves the closes [data] for every symbol. *)
Definition serve (data : list Q) : string -> option (list Q) :=
  λ _, Some data.

(** A flat history of [m] bars at price 1. *)
Definition flat (m : nat) : list Q := replicate m 1.

(** A configuration with one symbol. *)
Definition config (strat : string) (ps : gmap string Z) : BacktestConfig :=
  {| symbols := ["ACME"]; start := None; end_ := None;
     strategy := strat; params := ps |}.

(** ** Vocabulary of the further properties *)

(** Every entry is related to the next one. *)
Fixpoint chain (rel : Q -> Q -> Prop) (l : list Q) : Prop :=
  match l with
  | x :: (y :: _) as t => rel x y /\ chain rel t
  | _ => True
  end.

(** The values [_ema] emits for the inputs [r] after the value [e]. *)
Fixpoint ema_from (k e : Q) (r : list Q) : list Q :=
  match r with
  | [] => []
  | v :: r' => let e' := (v - e) * k + e in e' :: ema_from k e' r'
  end.

(** Each entry is at most the previous one. *)
Definition nonincreasing (l : list Q) : Prop := chain (λ a b, b <= a) l.

(** Gains and losses are magnitudes. *)
Definition magnitudes (gains losses : list Q) : Prop :=
  Forall (Qle 0) gains /\ Forall (Qle 0) losses.

(** Only gains so far, or only losses so far. *)
Definition no_losses (gains losses : list Q) : Prop :=
  Forall (Qle 0) gains /\ Forall (λ x, x == 0) losses.
Definition no_gains (gains losses : list Q) : Prop :=
  Forall (λ x, x == 0) gains /\ Forall (Qle 0) losses.

(** A reported fold: one of the [k] spans, long enough for the slow window,
    with the metrics of the crossover backtest over its own bars. *)
Definition fold_reported (sqrt : Q -> Q) (closes : list Q)
    (k fast slow fold_size : Z) (f : Fold) : Prop :=
  fold_span closes k fold_size f /\
  (slow + 5 <= fold_end f - fold_start f)%Z /\
  exists equity,
    _backtest_ma_crossover sqrt
      (py_slice (fold_start f) (fold_end f) closes) fast slow
    = Some (equity, fold_metrics f).

(** Folds in increasing fold number. *)
Definition ascending (results : list Fold) : Prop :=
  forall i j f g, (i < j)%nat ->
    results !! i = Some f -> results !! j = Some g -> (fold f < fold g)%Z.

(** Five rising closes. *)
Definition ramp : list Q := [1; 2; 3; 4; 5].

(** * Properties *)

(** ** Loops, sums and divisions *)

Lemma py_for_app {A S} (body : S -> A -> option S) (xs ys : list A) (st : S) :
  py_for body (xs ++ ys) st = py_for body xs st ≫= py_for body ys.
Proof.
  revert st. induction xs as [|x xs IH]; intros st; simpl; [done|].
  destruct (body st x); simpl; auto.
Qed.


Lemma py_truediv_Some (a b : Q) : ~ b == 0 -> py_truediv a b = Some (a / b).
Proof.
  intros Hb. unfold py_truediv. destruct (Qeq_bool b 0) eqn:E; [|done].
  apply Qeq_bool_iff in E. contradiction.
Qed.

Lemma fold_left_Qplus (l : list Q) (a : Q) :
  fold_left Qplus l a == a + py_sum l.
Proof.
  unfold py_sum. revert a. induction l as [|x l IH]; intros a; simpl.
  - lra.
  - rewrite (IH (a + x)), (IH (0 + x)). lra.
Qed.

Lemma py_sum_cons (x : Q) (l : list Q) : py_sum (x :: l) == x + py_sum l.
Proof. unfold py_sum at 1. simpl. rewrite fold_left_Qplus. lra. Qed.

Lemma py_sum_snoc (l : list Q) (x : Q) : py_sum (l ++ [x]) = py_sum l + x.
Proof. unfold py_sum. by rewrite fold_left_app. Qed.

Lemma py_len_pos {A} (l : list A) :
  l <> [] -> ~ inject_Z (py_len l) == 0.
Proof.
  intros Hl H. destruct l; [done|].
  unfold py_len, Qeq in H. simpl in H. lia.
Qed.

Lemma ltb_lt (a b : Q) : ltb a b = true <-> a < b.
Proof.
  unfold ltb. rewrite negb_true_iff. split.
  - intros H. apply Qnot_le_lt. intros Hle. apply Qle_bool_iff in Hle. congruence.
  - intros H. destruct (Qle_bool b a) eqn:E; [|done].
    apply Qle_bool_iff in E. lra.
Qed.

Lemma ltb_ge (a b : Q) : ltb a b = false <-> b <= a.
Proof.
  unfold ltb. rewrite negb_false_iff. apply Qle_bool_iff.
Qed.

(** ** The moving average *)

Section Sma.

Variable n : Z.
Hypothesis n_pos : (1 <= n)%Z.

Lemma trailing_snoc (p : list Q) (v : Q) :
  let q := trailing (Z.to_nat n) p ++ [v] in
  (if (py_len q >? n)%Z then drop 1 q else q)
  = trailing (Z.to_nat n) (p ++ [v]).
Proof.
  unfold trailing, py_len. simpl.
  rewrite !length_app, length_drop. simpl.
  rewrite <- (drop_app_le p [v]) by lia.
  destruct (Z.gtb_spec (Z.of_nat (length p - (length p - Z.to_nat n) + 1)) n).
  - rewrite drop_drop. f_equal. lia.
  - f_equal. lia.
Qed.

Lemma sma_spec_app (p r : list Q) (i : nat) :
  (i < length p)%nat -> sma_spec (p ++ r) (Z.to_nat n) i = sma_spec p (Z.to_nat n) i.
Proof. intros Hi. unfold sma_spec. rewrite take_app_le by lia. done. Qed.

Lemma sma_spec_last (p : list Q) (v : Q) :
  sma_spec (p ++ [v]) (Z.to_nat n) (length p)
  = mean (trailing (Z.to_nat n) (p ++ [v])).
Proof.
  unfold sma_spec. rewrite take_ge by (rewrite length_app; simpl; lia).
  unfold trailing. rewrite length_app. simpl. do 2 f_equal. lia.
Qed.

Lemma sma_body_inv (p : list Q) (st : list Q * Q * list Q) (v : Q) :
  sma_inv n p st ->
  exists st', sma_body n st v = Some st' /\ sma_inv n (p ++ [v]) st'.
Proof.
  destruct st as [[out s] q]. intros (Hq & Hs & Hlen & Hout).
  pose proof (trailing_snoc p v) as Ht. simpl in Ht.
  unfold sma_body. rewrite Hq.
  set (q' := trailing (Z.to_nat n) (p ++ [v])) in *.
  assert (Hq' : q' <> []).
  { unfold q', trailing. intros H. apply (f_equal length) in H.
    rewrite length_drop, length_app in H. simpl in H. lia. }
  assert (exists s', s' == py_sum q' /\
     (if (py_len (trailing (Z.to_nat n) p ++ [v]) >? n)%Z
      then match trailing (Z.to_nat n) p ++ [v] with
           | x :: q0 => Some (s + v - x, q0)
           | [] => None
           end
      else Some (s + v, trailing (Z.to_nat n) p ++ [v])) = Some (s', q'))
    as (s' & Hs' & ->).
  { destruct (py_len (trailing (Z.to_nat n) p ++ [v]) >? n)%Z.
    - destruct (trailing (Z.to_nat n) p ++ [v]) as [|x q0] eqn:E.
      + destruct (trailing (Z.to_nat n) p); discriminate.
      + simpl in Ht. rewrite drop_0 in Ht. subst q0.
        exists (s + v - x). split; [|done].
        assert (py_sum (x :: q') == py_sum (trailing (Z.to_nat n) p) + v) as H.
        { rewrite <- E, py_sum_snoc. reflexivity. }
        rewrite py_sum_cons in H. rewrite Hs, Hq. lra.
    - rewrite Ht. exists (s + v). split; [|done].
      rewrite <- Ht, py_sum_snoc, Hs, Hq. reflexivity. }
  simpl. rewrite py_truediv_Some by (by apply py_len_pos). simpl.
  eexists. split; [done|].
  split; [done|]. split; [done|]. split.
  { rewrite !length_app. simpl. lia. }
  intros i Hi. rewrite length_app in Hi. simpl in Hi.
  destruct (decide (i < length p)%nat) as [Hlt|Hge].
  - destruct (Hout i Hlt) as (x & Hx & Hxs). exists x.
    rewrite lookup_app_l by lia. split; [done|]. by rewrite sma_spec_app.
  - assert (i = length p) as -> by lia.
    eexists. split.
    { rewrite lookup_app_r by lia. rewrite Hlen, Nat.sub_diag. done. }
    rewrite sma_spec_last. fold q'. unfold mean. by rewrite Hs'.
Qed.

Lemma sma_loop_inv (r p : list Q) (st : list Q * Q * list Q) :
  sma_inv n p st ->
  exists st', py_for (sma_body n) r st = Some st' /\ sma_inv n (p ++ r) st'.
Proof.
  revert p st. induction r as [|v r IH]; intros p st Hinv; simpl.
  - exists st. by rewrite app_nil_r.
  - destruct (sma_body_inv p st v Hinv) as (st1 & -> & Hinv1).
    destruct (IH _ _ Hinv1) as (st' & Hfor & Hinv').
    exists st'. split; [done|]. by rewrite <- app_assoc in Hinv'.
Qed.

Lemma sma_total (arr : list Q) :
  exists out, _sma arr n = Some out /\ length out = length arr /\
    forall i, (i < length arr)%nat ->
      exists x, out !! i = Some x /\ x == sma_spec arr (Z.to_nat n) i.
Proof.
  destruct (sma_loop_inv arr [] ([], 0, [])) as ([[out s] q] & Hfor & Hinv).
  { repeat split; try done. intros i Hi. simpl in Hi. lia. }
  simpl in Hinv. destruct Hinv as (_ & _ & Hlen & Hout).
  exists out. unfold _sma. rewrite Hfor. done.
Qed.

End Sma.

(** ** The relative strength index *)

Lemma py_max_0_nonneg (x : Q) : 0 <= py_max 0 x.
Proof.
  unfold py_max. destruct (ltb 0 x) eqn:E; [|lra].
  apply ltb_lt in E. lra.
Qed.

Lemma py_max_0_nonpos (x : Q) : x <= 0 -> py_max 0 x = 0.
Proof.
  intros Hx. unfold py_max. destruct (ltb 0 x) eqn:E; [|done].
  apply ltb_lt in E. lra.
Qed.

Lemma py_sum_nonneg (l : list Q) : Forall (Qle 0) l -> 0 <= py_sum l.
Proof.
  induction l as [|x l IH] using rev_ind; intros Hl.
  - unfold py_sum. simpl. lra.
  - apply Forall_app in Hl as [Hl Hx]. rewrite Forall_singleton in Hx.
    rewrite py_sum_snoc. specialize (IH Hl). lra.
Qed.

Lemma py_sum_zeros (k : nat) : py_sum (replicate k 0) == 0.
Proof.
  induction k as [|k IH].
  - reflexivity.
  - rewrite replicate_S_end, py_sum_snoc, IH. lra.
Qed.

Lemma inject_Z_pos (n : Z) : (1 <= n)%Z -> 0 < inject_Z n.
Proof. intros Hn. change 0 with (inject_Z 0). rewrite <- Zlt_Qlt. lia. Qed.

Lemma Qdiv_nonneg (a b : Q) : 0 <= a -> 0 < b -> 0 <= a / b.
Proof. intros Ha Hb. apply Qle_shift_div_l; lra. Qed.


Lemma rsi_value_flat (n : Z) (k : nat) :
  (1 <= n)%Z ->
  exists x, rsi_value n (replicate k 0) (replicate k 0) = Some x /\ x == 0.
Proof.
  intros Hn. pose proof (inject_Z_pos n Hn) as Hn'.
  unfold rsi_value, py_slice_from. rewrite drop_replicate.
  rewrite !py_truediv_Some by lra. simpl.
  assert (py_sum (replicate (k - slice_bound (py_len (replicate k 0)) (- n)) 0)
          / inject_Z n == 0) as Hz.
  { rewrite py_sum_zeros. field. lra. }
  apply Qeq_bool_iff in Hz. rewrite Hz. cbn [negb mbind option_bind].
  rewrite py_truediv_Some by lra. cbn [mbind option_bind].
  eexists. split; [done|]. field.
Qed.

Section Rsi.

Variable n : Z.
Hypothesis n_pos : (1 <= n)%Z.



(** A flat series at the price [c]. *)
Variable c : Q.

Lemma rsi_body_flat (k : nat) st :
  rsi_flat_inv n c k st ->
  exists st', rsi_body n st c = Some st' /\ rsi_flat_inv n c (S k) st'.
Proof.
  destruct st as [[[gains losses] rsis] prev].
  intros (-> & -> & -> & Hlen & Hr). unfold rsi_body.
  assert (match (if k is O then None else Some c) with
          | None => (replicate k 0 ++ [0], replicate k 0 ++ [0])
          | Some p => (replicate k 0 ++ [py_max 0 (c - p)],
                       replicate k 0 ++ [py_max 0 (- (c - p))])
          end = (replicate (S k) 0, replicate (S k) 0)) as ->.
  { rewrite replicate_S_end. destruct k; [done|].
    rewrite !py_max_0_nonpos by lra. done. }
  assert (forall x, x == rsi_flat n k ->
    length (rsis ++ [x]) = S k /\
    forall i, (i < S k)%nat ->
      exists y, (rsis ++ [x]) !! i = Some y /\ y == rsi_flat n i) as Hout.
  { intros x Hx. split; [rewrite length_app; simpl; lia|].
    intros i Hi. destruct (decide (i < k)%nat) as [Hlt|Hge].
    - rewrite lookup_app_l by lia. auto.
    - assert (i = k) as -> by lia. exists x.
      rewrite lookup_app_r by lia. rewrite Hlen, Nat.sub_diag. done. }
  unfold py_len. rewrite length_replicate.
  destruct (Z.ltb_spec (Z.of_nat (S k)) n) as [Hlt|Hge].
  - eexists. split; [done|]. split; [done|]. split; [done|]. split; [done|].
    apply Hout. unfold rsi_flat.
    destruct (Z.ltb_spec (Z.of_nat k + 1) n); [reflexivity|lia].
  - destruct (rsi_value_flat n (S k) n_pos) as (x & -> & Hx). simpl.
    eexists. split; [done|]. split; [done|]. split; [done|]. split; [done|].
    apply Hout. unfold rsi_flat.
    destruct (Z.ltb_spec (Z.of_nat k + 1) n); [lia|done].
Qed.

Lemma rsi_loop_flat (m k : nat) st :
  rsi_flat_inv n c k st ->
  exists st', py_for (rsi_body n) (replicate m c) st = Some st' /\
              rsi_flat_inv n c (k + m) st'.
Proof.
  revert k st. induction m as [|m IH]; intros k st Hinv; simpl.
  - exists st. by rewrite Nat.add_0_r.
  - destruct (rsi_body_flat k st Hinv) as (st1 & -> & Hinv1).
    destruct (IH _ _ Hinv1) as (st' & Hfor & Hinv').
    exists st'. split; [done|].
    by replace (k + S m)%nat with (S k + m)%nat by lia.
Qed.

End Rsi.

(** ** Drawdown *)

Lemma nondecreasing_head (a b : Q) (l : list Q) :
  a == b -> nondecreasing (a :: l) <-> nondecreasing (b :: l).
Proof. intros Hab. destruct l as [|y l]; simpl; [done|]. by rewrite Hab. Qed.

Lemma nondecreasing_dup (a : Q) (l : list Q) :
  nondecreasing (a :: a :: l) <-> nondecreasing (a :: l).
Proof. simpl. split; [tauto|]. intros H. split; [lra|done]. Qed.


Lemma py_max_ge_l (a b : Q) : a <= py_max a b.
Proof.
  unfold py_max. destruct (ltb a b) eqn:E; [|lra]. apply ltb_lt in E. lra.
Qed.

Lemma drawdown_loop (l : list Q) (peak m : Q) :
  0 < peak -> m <= 0 ->
  exists peak' d,
    py_for drawdown_body l (peak, m) = Some (peak', d) /\
    d <= m /\ (d == 0 <-> m == 0 /\ nondecreasing (peak :: l)).
Proof.
  revert peak m. induction l as [|v l IH]; intros peak m Hpeak Hm.
  - exists peak, m. simpl. split; [done|]. split; [lra|]. tauto.
  - pose proof (py_max_ge_l peak v) as Hge.
    assert (drawdown_body (peak, m) v
            = Some (py_max peak v, py_min m (v / py_max peak v - 1))) as Hstep.
    { unfold drawdown_body. by rewrite py_truediv_Some by lra. }
    cbn [py_for]. rewrite Hstep. clear Hstep.
    set (peak1 := py_max peak v) in *.
    set (m1 := py_min m (v / peak1 - 1)).
    destruct (Qlt_le_dec v peak) as [Hlt|Hle].
    + assert (peak1 = peak) as Hp1.
      { unfold peak1, py_max. destruct (ltb peak v) eqn:E; [|done].
        apply ltb_lt in E. lra. }
      assert (v / peak1 < 1) as Hdd
        by (apply Qlt_shift_div_r; lra).
      assert (m1 < 0) as Hm1.
      { unfold m1, py_min. destruct (ltb (v / peak1 - 1) m) eqn:E; [lra|].
        apply ltb_ge in E. lra. }
      assert (m1 <= m) as Hm1m.
      { unfold m1, py_min. destruct (ltb (v / peak1 - 1) m) eqn:E; [|lra].
        apply ltb_lt in E. lra. }
      destruct (IH peak1 m1) as (peak' & d & Hfor & Hd & _); [lra|lra|].
      exists peak', d. split; [done|]. split; [lra|].
      split; [lra|]. intros [_ [Hpv _]]. lra.
    + assert (peak1 == v) as Hp1.
      { unfold peak1, py_max. destruct (ltb peak v) eqn:E; [reflexivity|].
        apply ltb_ge in E. lra. }
      assert (v / peak1 - 1 == 0) as Hdd by (rewrite Hp1; field; lra).
      assert (m1 = m) as Hm1.
      { unfold m1, py_min. destruct (ltb (v / peak1 - 1) m) eqn:E; [|done].
        apply ltb_lt in E. lra. }
      rewrite Hm1.
      destruct (IH peak1 m) as (peak' & d & Hfor & Hd & Hiff); [lra|lra|].
      exists peak', d. split; [done|]. split; [done|].
      rewrite Hiff, (nondecreasing_head peak1 v l Hp1).
      cbn [nondecreasing]. tauto.
Qed.

Lemma max_drawdown_spec (e0 : Q) (t : list Q) :
  0 < e0 ->
  exists d, max_drawdown e0 (e0 :: t) = Some d /\
            d <= 0 /\ (d == 0 <-> nondecreasing (e0 :: t)).
Proof.
  intros He0.
  destruct (drawdown_loop (e0 :: t) e0 0) as (peak' & d & Hfor & Hd & Hiff);
    [done|lra|].
  exists d. unfold max_drawdown. rewrite Hfor. split; [done|]. split; [done|].
  rewrite Hiff, nondecreasing_dup. split; [tauto|]. split; [reflexivity|done].
Qed.

(** ** The equity loops *)

Section Engine.

Variable sqrt : Q -> Q.


Lemma appends_loop {A} (body : Z * list Q -> A -> option (Z * list Q))
    (xs : list A) (st st' : Z * list Q) :
  appends body -> py_for body xs st = Some st' ->
  exists ext, st'.2 = st.2 ++ ext /\ length ext = length xs.
Proof.
  intros Hb. revert st. induction xs as [|x xs IH]; intros st Hfor.
  - injection Hfor as <-. exists []. by rewrite app_nil_r.
  - cbn [py_for] in Hfor. destruct (body st x) as [st1|] eqn:E; [|done].
    destruct (Hb _ _ _ E) as (y & Hy).
    destruct (IH _ Hfor) as (ext & Hext & Hlen).
    exists (y :: ext). rewrite Hext, Hy, <- app_assoc. simpl. by rewrite Hlen.
Qed.

Lemma equity_append_inv (equity equity' : list Q) (pos : Z) (r : Q) :
  equity_append equity pos r = Some equity' ->
  exists x, equity' = equity ++ [x].
Proof.
  unfold equity_append. destruct (last equity); [|done].
  intros [= <-]. by eexists.
Qed.

Lemma ma_body_appends (closes fasts slows : list Q) :
  appends (ma_body closes fasts slows).
Proof.
  intros [pos equity] i st'. unfold ma_body.
  destruct (fasts !! i); [|done]. destruct (slows !! i); [|done].
  cbn [mbind option_bind]. destruct (rel_change closes i 1); [|done].
  cbn [mbind option_bind].
  destruct (equity_append _ _ _) as [eq'|] eqn:E; [|done].
  intros [= <-]. by apply equity_append_inv in E.
Qed.

Lemma momentum_body_appends (closes mom : list Q) :
  appends (momentum_body closes mom).
Proof.
  intros [pos equity] i st'. unfold momentum_body.
  destruct (mom !! i); [|done].
  cbn [mbind option_bind]. destruct (rel_change closes i 1); [|done].
  cbn [mbind option_bind].
  destruct (equity_append _ _ _) as [eq'|] eqn:E; [|done].
  intros [= <-]. by apply equity_append_inv in E.
Qed.

(** The curve a finished loop leaves: 1.0 first, one entry per bar. *)
Lemma curve_shape (body : Z * list Q -> nat -> option (Z * list Q))
    (closes : list Q) (st' : Z * list Q) :
  appends body ->
  py_for body (py_range 1 (length closes)) (0%Z, [1]) = Some st' ->
  exists t, st'.2 = 1 :: t /\ length t = (length closes - 1)%nat.
Proof.
  intros Hb Hfor.
  destruct (appends_loop _ _ _ _ Hb Hfor) as (ext & Hext & Hlen).
  exists ext. split; [done|]. unfold py_range in Hlen.
  by rewrite length_seq in Hlen.
Qed.

Lemma ma_crossover_inv (closes : list Q) (fast slow : Z) equity m :
  _backtest_ma_crossover sqrt closes fast slow = Some (equity, m) ->
  exists t d, equity = 1 :: t /\ length t = (length closes - 1)%nat /\
              max_drawdown 1 equity = Some d /\ maxdd m = d.
Proof.
  unfold _backtest_ma_crossover. intros H.
  destruct (_sma closes fast) as [fasts|]; [|done].
  destruct (_sma closes slow) as [slows|]; [|done].
  cbn [mbind option_bind] in H.
  destruct (py_for _ _ _) as [[pos eq]|] eqn:Hfor; [|done].
  cbn [mbind option_bind] in H.
  destruct (curve_returns eq) as [returns|]; [|done].
  cbn [mbind option_bind] in H.
  destruct (sharpe_ratio sqrt returns) as [s|]; [|done].
  cbn [mbind option_bind] in H.
  apply curve_shape in Hfor as (t & Ht & Hlen);
    [|apply ma_body_appends]. simpl in Ht. subst eq.
  cbn [lookup list_lookup mbind option_bind] in H.
  destruct (max_drawdown 1 (1 :: t)) as [d|] eqn:Hd; [|done].
  injection H as <- <-. by exists t, d.
Qed.

Lemma momentum_inv (closes : list Q) equity m :
  backtest_momentum sqrt closes = Some (equity, m) ->
  exists t d, equity = 1 :: t /\ length t = (length closes - 1)%nat /\
              max_drawdown 1 equity = Some d /\ maxdd m = d.
Proof.
  unfold backtest_momentum. intros H.
  destruct (momentum_signal closes) as [mom|]; [|done].
  cbn [mbind option_bind] in H.
  destruct (py_for _ _ _) as [[pos eq]|] eqn:Hfor; [|done].
  cbn [mbind option_bind] in H.
  destruct (curve_returns eq) as [returns|]; [|done].
  cbn [mbind option_bind] in H.
  destruct (sharpe_ratio sqrt returns) as [s|]; [|done].
  cbn [mbind option_bind] in H.
  apply curve_shape in Hfor as (t & Ht & Hlen);
    [|apply momentum_body_appends]. simpl in Ht. subst eq.
  destruct (max_drawdown 1 (1 :: t)) as [d|] eqn:Hd; [|done].
  injection H as <- <-. by exists t, d.
Qed.

Lemma drawdown_of_curve (equity t : list Q) (d : Q) :
  equity = 1 :: t -> max_drawdown 1 equity = Some d ->
  d <= 0 /\ (d == 0 <-> nondecreasing equity).
Proof.
  intros -> Hd. destruct (max_drawdown_spec 1 t) as (d' & Hd' & H); [lra|].
  rewrite Hd in Hd'. by injection Hd' as ->.
Qed.

End Engine.

(** ** The crossover strategy on rising prices *)





(** ** Walk-forward folds *)

Lemma py_for_ext {A S} (f g : S -> A -> option S) (xs : list A) (st : S) :
  (forall x s, x ∈ xs -> f s x = g s x) -> py_for f xs st = py_for g xs st.
Proof.
  revert st. induction xs as [|x xs IH]; intros st Hfg; [done|].
  cbn [py_for]. rewrite (Hfg x st) by apply list_elem_of_here.
  destruct (g st x); [|done]. apply IH. intros y st0 Hy.
  apply Hfg. by apply list_elem_of_further.
Qed.

(** A slice that ends within the first [T] points reads only those. *)
Lemma py_slice_prefix (l l' : list Q) (lo hi : Z) (T : nat) :
  length l = length l' -> take T l = take T l' ->
  (slice_bound (py_len l) hi <= T)%nat ->
  py_slice lo hi l = py_slice lo hi l'.
Proof.
  intros Hlen Htake Hhi. unfold py_slice, py_len in *. rewrite <- Hlen.
  set (a := slice_bound (Z.of_nat (length l)) lo).
  set (b := slice_bound (Z.of_nat (length l)) hi) in *.
  destruct (decide (a <= b)%nat) as [Hab|Hab].
  - rewrite !take_drop_commute. f_equal.
    replace (a + (b - a))%nat with (Nat.min b T) by lia.
    by rewrite <- !take_take, Htake.
  - replace (b - a)%nat with 0%nat by lia. done.
Qed.

Section Folds.

Variable sqrt : Q -> Q.
Variables (closes : list Q) (k fast slow fold_size : Z).
Hypothesis fold_size_min : (50 <= fold_size)%Z.

Lemma wf_loop_spans (xs : list nat) (results results' : list Fold) :
  Forall (λ i, (Z.of_nat i < k)%Z) xs ->
  Forall (fold_span closes k fold_size) results ->
  py_for (wf_body sqrt closes (py_len closes) fold_size fast slow) xs results
    = Some results' ->
  Forall (fold_span closes k fold_size) results'.
Proof.
  revert results. induction xs as [|i xs IH]; intros results Hxs Hres Hfor.
  - by injection Hfor as <-.
  - apply Forall_cons in Hxs as [Hi Hxs]. cbn [py_for] in Hfor.
    destruct (wf_body sqrt closes (py_len closes) fold_size fast slow results i)
      as [res1|] eqn:E; [|done].
    apply (IH res1); [done| |done].
    unfold wf_body in E.
    destruct (_ <? _)%Z; [by injection E as <-|].
    destruct (_backtest_ma_crossover _ _ _ _) as [[eq met]|]; [|done].
    injection E as <-. apply Forall_app. split; [done|].
    apply Forall_singleton. by exists i.
Qed.

Lemma fold_span_bounds (f : Fold) :
  fold_span closes k fold_size f ->
  (0 <= fold_start f)%Z /\ (fold_end f <= py_len closes)%Z /\
  (fold_end f <= k * fold_size)%Z.
Proof.
  intros (i & Hi & _ & -> & ->). split; [nia|]. split; [lia|].
  assert ((Z.of_nat i + 1) * fold_size <= k * fold_size)%Z by nia. lia.
Qed.

Lemma wf_body_prefix (closes' : list Q) (results : list Fold) (i : nat) :
  length closes' = length closes ->
  take (Z.to_nat (k * fold_size)) closes'
    = take (Z.to_nat (k * fold_size)) closes ->
  (Z.of_nat i < k)%Z ->
  wf_body sqrt closes' (py_len closes) fold_size fast slow results i
  = wf_body sqrt closes (py_len closes) fold_size fast slow results i.
Proof.
  intros Hlen Htake Hi. unfold wf_body.
  destruct (_ <? _)%Z; [done|].
  rewrite (py_slice_prefix closes' closes _ _ (Z.to_nat (k * fold_size)));
    [done..|].
  unfold slice_bound, py_len. rewrite Hlen.
  assert ((Z.of_nat i + 1) * fold_size <= k * fold_size)%Z by nia.
  destruct (Z.ltb_spec (Z.min (Z.of_nat (length closes))
                              ((Z.of_nat i + 1) * fold_size)) 0); lia.
Qed.

End Folds.

Lemma range_below (k : Z) :
  Forall (λ i : nat, (Z.of_nat i < k)%Z) (py_range 0 (Z.to_nat k)).
Proof.
  apply Forall_forall. intros i Hi. unfold py_range in Hi.
  apply elem_of_seq in Hi. lia.
Qed.

Lemma walkforward_on_folds (sqrt : Q -> Q) (closes : list Q) (k fast slow : Z)
    (w : WalkForward) :
  walkforward_on sqrt closes k fast slow = Some w ->
  Forall (fold_span closes k (Z.max 50 (py_len closes / k))) (folds w).
Proof.
  unfold walkforward_on. destruct (_ <? _)%Z; [by intros [= <-]|].
  unfold py_floordiv. destruct (k =? 0)%Z; [done|]. cbn [mbind option_bind].
  destruct (py_for _ _ _) as [results|] eqn:Hfor; [|done].
  cbn [mbind option_bind].
  apply (wf_loop_spans sqrt closes k) in Hfor; [|apply range_below|done].
  destruct results as [|r results]; [by intros [= <-]|].
  destruct (py_truediv _ _); [|done]. cbn [mbind option_bind].
  destruct (py_truediv _ _); [|done]. by intros [= <-].
Qed.

Lemma walkforward_on_prefix (sqrt : Q -> Q) (closes closes' : list Q)
    (k fast slow : Z) :
  length closes' = length closes ->
  let T := Z.to_nat (k * Z.max 50 (py_len closes / k)) in
  take T closes' = take T closes ->
  walkforward_on sqrt closes' k fast slow
  = walkforward_on sqrt closes k fast slow.
Proof.
  intros Hlen T Htake. unfold walkforward_on.
  assert (py_len closes' = py_len closes) as -> by (unfold py_len; by rewrite Hlen).
  destruct (_ <? _)%Z; [done|].
  unfold py_floordiv. destruct (k =? 0)%Z; [done|]. cbn [mbind option_bind].
  rewrite (py_for_ext
             (wf_body sqrt closes' (py_len closes)
                (Z.max 50 (py_len closes / k)) fast slow)
             (wf_body sqrt closes (py_len closes)
                (Z.max 50 (py_len closes / k)) fast slow)); [done|].
  intros i s Hi. apply (wf_body_prefix sqrt closes k); [lia|done..|].
  pose proof (range_below k) as Hr. rewrite Forall_forall in Hr. by apply Hr.
Qed.

(** ** The direction heuristic *)

Lemma sma_latest (closes : list Q) (n : Z) :
  (1 <= n)%Z -> closes <> [] ->
  exists x, (_sma closes n ≫= last) = Some x /\
            x == latest_sma closes (Z.to_nat n).
Proof.
  intros Hn Hne. destruct (sma_total n Hn closes) as (out & -> & Hlen & Hout).
  cbn [mbind option_bind]. rewrite last_lookup, Hlen. unfold latest_sma.
  replace (Init.Nat.pred (length closes)) with (length closes - 1)%nat by lia.
  apply Hout. destruct closes; [done|]. simpl. lia.
Qed.

(** * The claims *)

(** C1, as amended.  For a constant price series of any value [c] and any
    length [len], and a window [n >= 1], [_rsi] returns one value per point:
    the neutral 50 at the indices [i < n - 1] of the warm-up, and 0 at every
    index [i >= n - 1], where the mean loss is zero and [rs] is taken as 0. *)
Theorem rsi_constant_series (c : Q) (n : Z) (len : nat) :
  (1 <= n)%Z ->
  exists out, _rsi (replicate len c) n = Some out /\ length out = len /\
    forall i, (i < len)%nat ->
      exists x, out !! i = Some x /\
                x == (if (Z.of_nat i + 1 <? n)%Z then 50 else 0).
Proof.
  intros Hn.
  destruct (rsi_loop_flat n Hn c len 0 ([], [], [], None))
    as ([[[gains losses] rsis] prev] & Hfor & Hinv).
  { repeat split; try done. intros i Hi. lia. }
  destruct Hinv as (_ & _ & _ & Hlen & Hr).
  exists rsis. unfold _rsi. rewrite Hfor. done.
Qed.

Lemma rsi_constant_series_witness :
  (1 <= 14)%Z /\
  exists out, _rsi (replicate 20 7) 14 = Some out /\ length out = 20%nat /\
    forall i, (i < 20)%nat ->
      exists x, out !! i = Some x /\
                x == (if (Z.of_nat i + 1 <? 14)%Z then 50 else 0).
Proof. split; [lia | apply (rsi_constant_series 7 14 20); lia]. Defined.

(** C1, as stated, fails: fourteen equal prices with the default window of 14
    give 0, not 50, at the last index. *)
Lemma rsi_constant_series_not_neutral :
  _rsi (replicate 14 1) 14 = Some (replicate 13 50 ++ [0]) /\ ~ 0 == 50.
Proof. split; [vm_compute; reflexivity | discriminate]. Qed.





(** Whenever either strategy returns, its curve has one entry per bar and
    starts at 1. *)
Lemma equity_curve_shape (sqrt : Q -> Q) (closes : list Q) (fast slow : Z)
    (equity : list Q) (m : Metrics) :
  _backtest_ma_crossover sqrt closes fast slow = Some (equity, m) \/
  backtest_momentum sqrt closes = Some (equity, m) ->
  closes <> [] ->
  length equity = length closes /\ equity !! 0%nat = Some 1.
Proof.
  intros H Hne.
  assert (exists t, equity = 1 :: t /\ length t = (length closes - 1)%nat)
    as (t & -> & Hlen).
  { destruct H as [H|H].
    - apply ma_crossover_inv in H as (t & d & ? & ? & _). by exists t.
    - apply momentum_inv in H as (t & d & ? & ? & _). by exists t. }
  split; [|done]. destruct closes; [done|]. simpl in *. lia.
Qed.

(** C4.  The crossover strategy fails on the closes 1.0, 0.0, 5.0 with the
    default windows: the curve reaches 0.0 at bar 1 and stays there, and the
    returns of the curve divide by that entry.  No curve is returned, by the
    engine or by the [backtest] operation. *)
Theorem ma_crossover_zero_equity_fails (sqrt : Q -> Q) :
  curve_returns [1; 0; 0] = None /\
  _backtest_ma_crossover sqrt [1; 0; 5] 20 50 = None /\
  backtest sqrt (serve [1; 0; 5]) (config "ma_crossover" ∅) = None.
Proof. repeat split; vm_compute; reflexivity. Qed.

(** C5.  Whenever either strategy returns a curve and its metrics, [maxdd] is
    at most 0, and it is 0 exactly when the curve is non-decreasing. *)
Theorem maxdd_nonpositive (sqrt : Q -> Q) (closes : list Q) (fast slow : Z)
    (equity : list Q) (m : Metrics) :
  _backtest_ma_crossover sqrt closes fast slow = Some (equity, m) \/
  backtest_momentum sqrt closes = Some (equity, m) ->
  maxdd m <= 0 /\ (maxdd m == 0 <-> nondecreasing equity).
Proof.
  intros [H|H].
  - apply ma_crossover_inv in H as (t & d & Ht & _ & Hd & ->).
    by apply (drawdown_of_curve equity t).
  - apply momentum_inv in H as (t & d & Ht & _ & Hd & ->).
    by apply (drawdown_of_curve equity t).
Qed.

Lemma maxdd_nonpositive_witness :
  exists equity m,
    _backtest_ma_crossover approx_sqrt [100; 101; 99; 102] 2 3
      = Some (equity, m) /\
    maxdd m <= 0 /\ (maxdd m == 0 <-> nondecreasing equity).
Proof.
  eexists _, _. split; [vm_compute; reflexivity|].
  apply (maxdd_nonpositive approx_sqrt [100; 101; 99; 102] 2 3).
  left. vm_compute. reflexivity.
Defined.






(** C8.  For every history with fewer than [slow + 50] points, [walkforward]
    returns, without an exception, an empty fold list with an average Sharpe
    ratio of 0 and an average drawdown of 0. *)
Theorem walkforward_short_history (sqrt : Q -> Q)
    (fetch : string -> option (list Q)) (symbol : string) (k fast slow : Z) :
  (py_len (_get_history fetch symbol 800) < slow + 50)%Z ->
  walkforward sqrt fetch symbol k fast slow
  = Some {| folds := []; avg_sharpe := 0; avg_maxdd := 0 |}.
Proof.
  intros Hshort. unfold walkforward, walkforward_on.
  destruct (Z.ltb_spec (py_len (_get_history fetch symbol 800)) (slow + 50));
    [done|lia].
Qed.

Lemma walkforward_short_history_witness :
  (py_len (_get_history (serve (flat 99)) "ACME" 800) < 50 + 50)%Z /\
  walkforward approx_sqrt (serve (flat 99)) "ACME" 0 20 50
  = Some {| folds := []; avg_sharpe := 0; avg_maxdd := 0 |}.
Proof.
  split; [vm_compute; reflexivity|].
  apply (walkforward_short_history approx_sqrt (serve (flat 99))).
  vm_compute. reflexivity.
Defined.

(** C9.  With the strategy 'momentum', the result of [backtest] does not
    depend on the params mapping: two configurations that differ in [params]
    only give the same result on the same history. *)
Theorem momentum_ignores_params (sqrt : Q -> Q)
    (fetch : string -> option (list Q)) (cfg : BacktestConfig)
    (ps : gmap string Z) :
  strategy cfg = "momentum" ->
  backtest sqrt fetch cfg
  = backtest sqrt fetch
      {| symbols := symbols cfg; start := start cfg; end_ := end_ cfg;
         strategy := strategy cfg; params := ps |}.
Proof.
  intros Hstrat. unfold backtest. cbn [symbols strategy params].
  rewrite Hstrat. cbn [String.eqb Ascii.eqb Bool.eqb].
  destruct (symbols cfg); [done|]. by destruct (_get_history _ _ _).
Qed.

Lemma momentum_ignores_params_witness :
  backtest approx_sqrt (serve (flat 30)) (config "momentum" ∅)
  = backtest approx_sqrt (serve (flat 30))
      (config "momentum" (<["fast" := 0%Z]> ∅)).
Proof.
  apply (momentum_ignores_params approx_sqrt (serve (flat 30))
           (config "momentum" ∅)).
  reflexivity.
Defined.

(** C10.  In a result of the walk-forward evaluator over [n] points with [k]
    folds and [fold_size = max 50 (n / k)], every reported fold spans
    indices within [0, k * fold_size), and within the series.  So the bars
    from index [k * fold_size] on lie in no fold, and the result is the same
    for any series of the same length with the same first [k * fold_size]
    bars: the engine never reads the others.  Such bars exist when
    [n / k >= 50] and [k] does not divide [n]. *)
Theorem walkforward_tail_unused (sqrt : Q -> Q) (closes : list Q)
    (k fast slow : Z) (w : WalkForward) :
  walkforward_on sqrt closes k fast slow = Some w ->
  let n := py_len closes in
  let fold_size := Z.max 50 (n / k) in
  (forall f, f ∈ folds w ->
     (0 <= fold_start f)%Z /\ (fold_end f <= k * fold_size)%Z /\
     (fold_end f <= n)%Z) /\
  (forall f j, f ∈ folds w -> (k * fold_size <= j < n)%Z ->
     ~ (fold_start f <= j < fold_end f)%Z) /\
  (forall closes', length closes' = length closes ->
     take (Z.to_nat (k * fold_size)) closes'
       = take (Z.to_nat (k * fold_size)) closes ->
     walkforward_on sqrt closes' k fast slow = Some w) /\
  ((50 <= n / k)%Z -> (n mod k <> 0)%Z -> (k * fold_size < n)%Z).
Proof.
  intros Hw n fold_size.
  pose proof (walkforward_on_folds sqrt closes k fast slow w Hw) as Hspans.
  rewrite Forall_forall in Hspans.
  assert (forall f, f ∈ folds w ->
     (0 <= fold_start f)%Z /\ (fold_end f <= k * fold_size)%Z /\
     (fold_end f <= n)%Z) as Hbounds.
  { intros f Hf.
    destruct (fold_span_bounds closes k fold_size) with (f := f)
      as (H0 & Hn & Hk); [unfold fold_size; lia|by apply Hspans|done]. }
  split; [done|]. split; [|split].
  - intros f j Hf Hj. destruct (Hbounds f Hf) as (_ & Hk & _). lia.
  - intros closes' Hlen Htake. rewrite <- Hw.
    by apply walkforward_on_prefix.
  - intros Hq Hmod. assert (0 <= n)%Z by (unfold n, py_len; lia).
    assert (0 < k)%Z as Hk.
    { destruct (Z.ltb_spec 0 k) as [|Hle]; [done|].
      destruct (Z.eq_dec k 0%Z) as [->|Hk0]; [rewrite Z.div_0_r in Hq; lia|].
      pose proof (Z.div_mod n k Hk0).
      pose proof (Z.mod_neg_bound n k ltac:(lia)). nia. }
    replace fold_size with (n / k)%Z by (unfold fold_size; lia).
    pose proof (Z.div_mod n k ltac:(lia)).
    pose proof (Z.mod_pos_bound n k Hk). lia.
Qed.

Lemma walkforward_tail_unused_witness :
  exists w,
    walkforward_on approx_sqrt (flat 105) 2 5 20 = Some w /\
    length (folds w) = 2%nat /\
    forall f, f ∈ folds w -> (fold_end f <= 104)%Z.
Proof.
  eexists. split; [vm_compute; reflexivity|]. split; [reflexivity|].
  intros f Hf.
  destruct (walkforward_tail_unused approx_sqrt (flat 105) 2 5 20 _
              ltac:(vm_compute; reflexivity)) as (Hb & _).
  destruct (Hb f Hf) as (_ & Hk & _). exact Hk.
Defined.

(** * Further properties *)

(** ** Moving averages *)

Lemma py_truediv_inv (a b r : Q) :
  py_truediv a b = Some r -> ~ b == 0 /\ r = a / b.
Proof.
  unfold py_truediv. destruct (Qeq_bool b 0) eqn:E; [done|].
  intros [= <-]. split; [|done]. intros Hb. apply Qeq_bool_iff in Hb.
  congruence.
Qed.

Lemma sma_fails_nonpositive (v : Q) (arr : list Q) (n : Z) :
  (n <= 0)%Z -> _sma (v :: arr) n = None.
Proof.
  intros Hn. unfold _sma. cbn [py_for].
  assert (sma_body n ([], 0, []) v = None) as ->; [|done].
  unfold sma_body. cbn [app]. change (py_len [v]) with 1%Z.
  destruct (Z.gtb_spec 1 n) as [_|]; [|lia].
  reflexivity.
Qed.




(** X1.  [_sma] raises exactly on a non-empty series with a window below 1:
    the buffer is emptied before the division by its length. *)
Theorem sma_fails_iff (arr : list Q) (n : Z) :
  _sma arr n = None <-> arr <> [] /\ (n <= 0)%Z.
Proof.
  split.
  - intros Hnone. destruct arr as [|v arr]; [done|]. split; [done|].
    destruct (Z.le_gt_cases n 0) as [|Hn]; [done|].
    destruct (sma_total n ltac:(lia) (v :: arr)) as (out & Hout & _).
    congruence.
  - intros [Hne Hn]. destruct arr as [|v arr]; [done|].
    by apply sma_fails_nonpositive.
Qed.



(** ** The exponential average *)

Lemma ema_loop_from (k : Q) (r out : list Q) (e : Q) :
  exists e',
    py_for (ema_body k) r (out, Some e) = Some (out ++ ema_from k e r, e').
Proof.
  revert out e. induction r as [|v r IH]; intros out e.
  - exists (Some e). simpl. by rewrite app_nil_r.
  - cbn [py_for ema_body ema_from].
    destruct (IH (out ++ [(v - e) * k + e]) ((v - e) * k + e)) as (e' & ->).
    exists e'. by rewrite <- app_assoc.
Qed.

Lemma ema_unfold (arr : list Q) (n : Z) :
  n <> (-1)%Z ->
  _ema arr n
  = Some match arr with
         | [] => []
         | v :: r => v :: ema_from (2 / inject_Z (n + 1)) v r
         end.
Proof.
  intros Hn. unfold _ema. rewrite py_truediv_Some.
  2:{ intros H. unfold Qeq in H. simpl in H. lia. }
  cbn [mbind option_bind]. destruct arr as [|v r]; [reflexivity|].
  cbn [py_for ema_body app].
  by destruct (ema_loop_from (2 / inject_Z (n + 1)) r [v] v) as (e' & ->).
Qed.

Lemma ema_from_length (k e : Q) (r : list Q) :
  length (ema_from k e r) = length r.
Proof. revert e. induction r; intros e; simpl; auto. Qed.


Lemma ema_from_step (k e : Q) (r : list Q) (i : nat) (x v : Q) :
  (e :: ema_from k e r) !! i = Some x -> r !! i = Some v ->
  ema_from k e r !! i = Some ((v - x) * k + x).
Proof.
  revert e i. induction r as [|w r IH]; intros e i Hx Hv; [done|].
  destruct i as [|i].
  - cbn in Hx, Hv. by simplify_eq.
  - cbn [ema_from]. cbn in Hx, Hv. by apply IH.
Qed.

(** X3.  [_ema] raises exactly for the window -1, also on an empty series:
    the smoothing factor 2/(n+1) is computed before the loop. *)
Theorem ema_fails_iff (arr : list Q) (n : Z) :
  _ema arr n = None <-> n = (-1)%Z.
Proof.
  split.
  - intros Hnone. destruct (Z.eq_dec n (-1)%Z) as [|Hn]; [done|].
    rewrite ema_unfold in Hnone by done. done.
  - intros ->. reflexivity.
Qed.

(** X4.  For a window other than -1, [_ema] returns one value per point: the
    first is the first input, and each later one moves the previous value
    towards the input by the factor [2/(n+1)]. *)
Theorem ema_seed_and_recurrence (arr : list Q) (n : Z) :
  n <> (-1)%Z ->
  exists out, _ema arr n = Some out /\ length out = length arr /\
    out !! 0%nat = arr !! 0%nat /\
    forall i e v, out !! i = Some e -> arr !! S i = Some v ->
      out !! S i = Some ((v - e) * (2 / inject_Z (n + 1)) + e).
Proof.
  intros Hn. rewrite ema_unfold by done. eexists. split; [done|].
  destruct arr as [|v0 r]; [done|]. split; [|split; [done|]].
  - cbn [length]. by rewrite ema_from_length.
  - intros i e v He Hv. cbn in Hv. cbn [lookup list_lookup].
    by apply ema_from_step.
Qed.

Lemma ema_seed_and_recurrence_witness :
  exists out, _ema [1; 2; 3] 3 = Some out /\ length out = 3%nat /\
    out !! 0%nat = Some 1 /\
    forall i e v, out !! i = Some e -> [1; 2; 3] !! S i = Some v ->
      out !! S i = Some ((v - e) * (2 / inject_Z (3 + 1)) + e).
Proof. apply (ema_seed_and_recurrence [1; 2; 3] 3). discriminate. Defined.



(** ** More on the relative strength index *)

Lemma rsi_body_step (n : Z) (gains losses rsis : list Q) (prev : option Q)
    (v : Q) :
  let g := match prev with None => 0 | Some p => py_max 0 (v - p) end in
  let l := match prev with None => 0 | Some p => py_max 0 (- (v - p)) end in
  rsi_body n (gains, losses, rsis, prev) v
  = if (py_len (gains ++ [g]) <? n)%Z
    then Some (gains ++ [g], losses ++ [l], rsis ++ [50], Some v)
    else rsi_value n (gains ++ [g]) (losses ++ [l])
         ≫= λ x, Some (gains ++ [g], losses ++ [l], rsis ++ [x], Some v).
Proof. unfold rsi_body. by destruct prev. Qed.

Lemma chain_cons (rel : Q -> Q -> Prop) (a v : Q) (r : list Q) :
  chain rel (a :: v :: r) <-> rel a v /\ chain rel (v :: r).
Proof. done. Qed.

Lemma nondecreasing_chain (l : list Q) : nondecreasing l <-> chain Qle l.
Proof.
  induction l as [|a [|b l] IH]; [done..|].
  cbn [nondecreasing chain]. by rewrite IH.
Qed.

Section RsiLoop.

Variable n : Z.
Variable rel : Q -> Q -> Prop.
Variable J : list Q -> list Q -> Prop.
Variable P : nat -> Q -> Prop.

Hypothesis J_first : J [0] [0].
Hypothesis J_step : forall gains losses a v,
  rel a v -> J gains losses ->
  J (gains ++ [py_max 0 (v - a)]) (losses ++ [py_max 0 (- (v - a))]).
Hypothesis P_warm : forall k : nat, (Z.of_nat k + 1 < n)%Z -> P k 50.
Hypothesis P_full : forall (k : nat) gains losses,
  length gains = S k -> (n <= Z.of_nat k + 1)%Z -> J gains losses ->
  exists x, rsi_value n gains losses = Some x /\ P k x.

Lemma rsi_emit (gains losses rsis : list Q) (k : nat) (prev : Q) :
  length gains = S k -> length rsis = k -> J gains losses ->
  (forall i x, rsis !! i = Some x -> P i x) ->
  exists x,
    (if (py_len gains <? n)%Z
     then Some (gains, losses, rsis ++ [50], Some prev)
     else rsi_value n gains losses
          ≫= λ x, Some (gains, losses, rsis ++ [x], Some prev))
    = Some (gains, losses, rsis ++ [x], Some prev) /\
    forall i y, (rsis ++ [x]) !! i = Some y -> P i y.
Proof.
  intros Hg Hr HJ HP.
  assert (forall x, P k x ->
            forall i y, (rsis ++ [x]) !! i = Some y -> P i y) as Hsnoc.
  { intros x Hx i y Hy. apply lookup_app_Some in Hy as [Hy|[Hi Hy]].
    - by apply HP.
    - rewrite Hr in Hi, Hy. destruct (i - k)%nat eqn:E; [|done].
      cbn in Hy. injection Hy as <-. by replace i with k by lia. }
  unfold py_len. rewrite Hg.
  destruct (Z.ltb_spec (Z.of_nat (S k)) n) as [Hlt|Hge].
  - exists 50. split; [done|]. apply Hsnoc, P_warm. lia.
  - destruct (P_full k gains losses) as (x & -> & Hx); [done|lia|done|].
    exists x. split; [done|]. by apply Hsnoc.
Qed.

Lemma rsi_loop_from (r : list Q) (gains losses rsis : list Q) (k : nat)
    (a : Q) :
  chain rel (a :: r) ->
  length gains = k -> length rsis = k -> J gains losses ->
  (forall i x, rsis !! i = Some x -> P i x) ->
  exists gains' losses' rsis' prev',
    py_for (rsi_body n) r (gains, losses, rsis, Some a)
      = Some (gains', losses', rsis', prev') /\
    length rsis' = (k + length r)%nat /\
    forall i x, rsis' !! i = Some x -> P i x.
Proof.
  revert gains losses rsis k a.
  induction r as [|v r IH]; intros gains losses rsis k a Hc Hg Hr HJ HP.
  - exists gains, losses, rsis, (Some a). rewrite Nat.add_0_r. done.
  - apply chain_cons in Hc as [Hav Hc].
    cbn [py_for]. rewrite rsi_body_step. cbv zeta.
    destruct (rsi_emit (gains ++ [py_max 0 (v - a)])
                (losses ++ [py_max 0 (- (v - a))]) rsis k v)
      as (x & -> & HP'); [rewrite length_app; simpl; lia|done|by apply J_step|done|].
    destruct (IH (gains ++ [py_max 0 (v - a)])
                (losses ++ [py_max 0 (- (v - a))]) (rsis ++ [x]) (S k) v Hc)
      as (g' & l' & r' & p' & -> & Hlen & HP'');
      [rewrite length_app; simpl; lia|rewrite length_app; simpl; lia|by apply J_step|done|].
    exists g', l', r', p'. split; [done|]. split; [|done].
    rewrite Hlen. cbn [length]. lia.
Qed.

Lemma rsi_pointwise (arr : list Q) :
  chain rel arr ->
  exists out, _rsi arr n = Some out /\ length out = length arr /\
              forall i x, out !! i = Some x -> P i x.
Proof.
  intros Hc. unfold _rsi. destruct arr as [|v r].
  - exists []. repeat split; try done.
  - cbn [py_for]. rewrite rsi_body_step. cbv zeta.
    change (@nil Q ++ [0]) with [0].
    destruct (rsi_emit [0] [0] [] 0 v) as (x & -> & HP); [done..|].
    destruct (rsi_loop_from r [0] [0] ([] ++ [x]) 1 v)
      as (g' & l' & r' & p' & -> & Hlen & HP'); [done..|].
    exists r'. cbn [mbind option_bind]. split; [done|]. split; [|done].
    rewrite Hlen. done.
Qed.

End RsiLoop.

Lemma magnitudes_first : magnitudes [0] [0].
Proof. split; apply Forall_singleton; lra. Qed.

Lemma magnitudes_step (gains losses : list Q) (a v : Q) :
  magnitudes gains losses ->
  magnitudes (gains ++ [py_max 0 (v - a)]) (losses ++ [py_max 0 (- (v - a))]).
Proof.
  intros [Hg Hl]. split; apply Forall_app; split; try done;
    apply Forall_singleton, py_max_0_nonneg.
Qed.

Lemma chain_True (l : list Q) : chain (λ _ _, True) l.
Proof. induction l as [|a [|b l] IH]; done. Qed.

Lemma rsi_value_range (n : Z) (gains losses : list Q) :
  n <> 0%Z -> magnitudes gains losses ->
  exists x, rsi_value n gains losses = Some x /\ 0 <= x /\ x < 100.
Proof.
  intros Hn [Hg Hl].
  assert (~ inject_Z n == 0) as Hn'.
  { intros H. unfold Qeq in H. simpl in H. lia. }
  unfold rsi_value. rewrite !py_truediv_Some by done.
  cbn [mbind option_bind].
  set (sg := py_sum (py_slice_from (- n) gains)).
  set (sl := py_sum (py_slice_from (- n) losses)).
  assert (0 <= sg) as Hsg by (apply py_sum_nonneg; by apply Forall_drop).
  assert (0 <= sl) as Hsl by (apply py_sum_nonneg; by apply Forall_drop).
  assert (exists rs,
    (if negb (Qeq_bool (sl / inject_Z n) 0)
     then py_truediv (sg / inject_Z n) (sl / inject_Z n) else Some 0)
    = Some rs /\ 0 <= rs) as (rs & -> & Hrs).
  { destruct (Qeq_bool (sl / inject_Z n) 0) eqn:E; cbn [negb].
    - exists 0. split; [done|lra].
    - assert (~ sl / inject_Z n == 0) as Hne.
      { intros H. apply Qeq_bool_iff in H. congruence. }
      rewrite py_truediv_Some by done. eexists. split; [done|].
      assert (~ sl == 0) as Hsl0.
      { intros H. apply Hne. rewrite H. field. done. }
      assert (sg / inject_Z n / (sl / inject_Z n) == sg / sl) as ->
        by (field; split; done).
      apply Qdiv_nonneg; lra. }
  cbn [mbind option_bind]. rewrite py_truediv_Some by lra.
  eexists. split; [done|].
  assert (0 < 100 / (1 + rs)) by (apply Qlt_shift_div_l; lra).
  assert (100 / (1 + rs) <= 100) by (apply Qle_shift_div_r; lra).
  lra.
Qed.

Lemma rsi_fails_zero (v : Q) (arr : list Q) : _rsi (v :: arr) 0 = None.
Proof. reflexivity. Qed.

(** X6.  [_rsi] raises exactly on a non-empty series with the window 0; for
    every other window, negative ones included, it returns one value per
    point. *)
Theorem rsi_fails_iff (arr : list Q) (n : Z) :
  _rsi arr n = None <-> arr <> [] /\ n = 0%Z.
Proof.
  split.
  - intros Hnone. destruct arr as [|v arr]; [done|]. split; [done|].
    destruct (Z.eq_dec n 0%Z) as [|Hn]; [done|].
    destruct (rsi_pointwise n (λ _ _, True) magnitudes (λ _ _, True)
                magnitudes_first) with (arr := v :: arr)
      as (out & Hout & _).
    + intros. by apply magnitudes_step.
    + done.
    + intros k gains losses _ _ HJ.
      destruct (rsi_value_range n gains losses Hn HJ) as (x & -> & _).
      by exists x.
    + apply chain_True.
    + congruence.
  - intros [Hne ->]. destruct arr; [done|]. apply rsi_fails_zero.
Qed.



Lemma py_sum_all_zero (l : list Q) : Forall (λ x, x == 0) l -> py_sum l == 0.
Proof.
  induction l as [|x l IH] using rev_ind; intros Hl; [reflexivity|].
  apply Forall_app in Hl as [Hl Hx]. rewrite Forall_singleton in Hx.
  rewrite py_sum_snoc, (IH Hl), Hx. lra.
Qed.

Lemma rsi_value_no_losses (n : Z) (gains losses : list Q) :
  (1 <= n)%Z -> no_losses gains losses ->
  exists x, rsi_value n gains losses = Some x /\ x == 0.
Proof.
  intros Hn [Hg Hl]. pose proof (inject_Z_pos n Hn) as Hn'.
  unfold rsi_value. rewrite !py_truediv_Some by lra.
  cbn [mbind option_bind].
  assert (py_sum (py_slice_from (- n) losses) / inject_Z n == 0) as Hz.
  { rewrite py_sum_all_zero by (by apply Forall_drop). field. lra. }
  apply Qeq_bool_iff in Hz. rewrite Hz. cbn [negb mbind option_bind].
  rewrite py_truediv_Some by lra. cbn [mbind option_bind].
  eexists. split; [done|]. field.
Qed.

Lemma rsi_value_no_gains (n : Z) (gains losses : list Q) :
  (1 <= n)%Z -> no_gains gains losses ->
  exists x, rsi_value n gains losses = Some x /\ x == 0.
Proof.
  intros Hn [Hg Hl]. pose proof (inject_Z_pos n Hn) as Hn'.
  unfold rsi_value. rewrite !py_truediv_Some by lra.
  cbn [mbind option_bind].
  set (al := py_sum (py_slice_from (- n) losses) / inject_Z n).
  assert (py_sum (py_slice_from (- n) gains) / inject_Z n == 0) as Hz.
  { rewrite py_sum_all_zero by (by apply Forall_drop). field. lra. }
  assert (exists rs,
    (if negb (Qeq_bool al 0)
     then py_truediv (py_sum (py_slice_from (- n) gains) / inject_Z n) al
     else Some 0) = Some rs /\ rs == 0) as (rs & -> & Hrs).
  { destruct (Qeq_bool al 0) eqn:E; cbn [negb].
    - exists 0. split; [done|reflexivity].
    - assert (~ al == 0) as Hne.
      { intros H. apply Qeq_bool_iff in H. congruence. }
      rewrite py_truediv_Some by done. eexists. split; [done|].
      rewrite Hz. field. done. }
  cbn [mbind option_bind]. rewrite py_truediv_Some by lra.
  eexists. split; [done|]. rewrite Hrs. field.
Qed.

(** X8.  On a series that never falls, or never rises, [_rsi] with a window
    [n >= 1] is 50 during the warm-up and 0 at every index [i >= n - 1]: a
    window without losses makes [rs] 0 by the guard, a window without gains
    makes it 0 by the quotient. *)
Theorem rsi_monotone_series (arr : list Q) (n : Z) :
  (1 <= n)%Z -> nondecreasing arr \/ nonincreasing arr ->
  exists out, _rsi arr n = Some out /\ length out = length arr /\
    forall i x, out !! i = Some x ->
      x == (if (Z.of_nat i + 1 <? n)%Z then 50 else 0).
Proof.
  intros Hn [Hup|Hdown].
  - apply (rsi_pointwise n Qle no_losses).
    + split; apply Forall_singleton; [lra|reflexivity].
    + intros gains losses a v Hav [Hg Hl]. split.
      * apply Forall_app. split; [done|].
        apply Forall_singleton, py_max_0_nonneg.
      * apply Forall_app. split; [done|]. apply Forall_singleton.
        rewrite py_max_0_nonpos by lra. reflexivity.
    + intros k Hk. destruct (Z.ltb_spec (Z.of_nat k + 1) n); [reflexivity|lia].
    + intros k gains losses _ Hk HJ.
      destruct (rsi_value_no_losses n gains losses Hn HJ) as (x & -> & Hx).
      exists x. split; [done|].
      destruct (Z.ltb_spec (Z.of_nat k + 1) n); [lia|done].
    + by apply nondecreasing_chain.
  - apply (rsi_pointwise n (λ a b, b <= a) no_gains).
    + split; apply Forall_singleton; [reflexivity|lra].
    + intros gains losses a v Hav [Hg Hl]. split.
      * apply Forall_app. split; [done|]. apply Forall_singleton.
        rewrite py_max_0_nonpos by lra. reflexivity.
      * apply Forall_app. split; [done|].
        apply Forall_singleton, py_max_0_nonneg.
    + intros k Hk. destruct (Z.ltb_spec (Z.of_nat k + 1) n); [reflexivity|lia].
    + intros k gains losses _ Hk HJ.
      destruct (rsi_value_no_gains n gains losses Hn HJ) as (x & -> & Hx).
      exists x. split; [done|].
      destruct (Z.ltb_spec (Z.of_nat k + 1) n); [lia|done].
    + done.
Qed.

Lemma rsi_monotone_series_witness :
  exists out, _rsi [1; 2; 4; 7] 2 = Some out /\
    length out = length [1; 2; 4; 7] /\
    forall i x, out !! i = Some x ->
      x == (if (Z.of_nat i + 1 <? 2)%Z then 50 else 0).
Proof.
  apply (rsi_monotone_series [1; 2; 4; 7] 2); [lia|].
  left. simpl. repeat split; discriminate.
Defined.

(** ** The backtest engine on positive prices *)


Lemma py_or_1_nonzero (p : Q) : ~ py_or p 1 == 0.
Proof.
  unfold py_or. destruct (Qeq_bool p 0) eqn:E; [lra|].
  intros H. apply Qeq_bool_iff in H. congruence.
Qed.


Lemma rel_change_total (closes : list Q) (i k : nat) :
  (k <= i < length closes)%nat ->
  exists c p, closes !! i = Some c /\ closes !! (i - k)%nat = Some p /\
              rel_change closes i k = Some ((c - p) / py_or p 1).
Proof.
  intros Hi. unfold rel_change.
  destruct (lookup_lt_is_Some_2 closes i) as [c Hc]; [lia|].
  destruct (lookup_lt_is_Some_2 closes (i - k)) as [p Hp]; [lia|].
  exists c, p. rewrite Hc, Hp. cbn [mbind option_bind].
  by rewrite py_truediv_Some by apply py_or_1_nonzero.
Qed.





Lemma sma_spec_warmup (closes : list Q) (n1 n2 i : nat) :
  (i < n1)%nat -> (i < n2)%nat -> sma_spec closes n1 i = sma_spec closes n2 i.
Proof.
  intros H1 H2. unfold sma_spec.
  by replace (Nat.min (i + 1) n1) with (Nat.min (i + 1) n2) by lia.
Qed.







(** ** The momentum strategy on non-negative prices *)

Lemma mapM_lookup {A B} (f : A -> option B) (l : list A) (k : list B)
    (i : nat) (x : A) (y : B) :
  mapM f l = Some k -> l !! i = Some x -> k !! i = Some y -> f x = Some y.
Proof.
  intros Hm Hx Hy. apply mapM_Some in Hm.
  by apply (Forall2_lookup_lr _ l k i x y Hm).
Qed.





(** ** History and the backtest operation *)

Lemma py_slice_from_last {A} (l : list A) (days : Z) :
  (1 <= days)%Z -> py_slice_from (- days) l = trailing (Z.to_nat days) l.
Proof.
  intros Hd. unfold py_slice_from, trailing, slice_bound, py_len.
  destruct (Z.ltb_spec (- days) 0); [|lia]. f_equal. lia.
Qed.

Lemma get_history_length (fetch : string -> option (list Q))
    (symbol : string) (days : Z) :
  (1 <= days)%Z ->
  (Z.of_nat (length (_get_history fetch symbol days)) <= days)%Z.
Proof.
  intros Hd. unfold _get_history. destruct (fetch symbol) as [data|].
  - rewrite py_slice_from_last by done. unfold trailing.
    rewrite length_drop. lia.
  - simpl. lia.
Qed.

(** X12.  When the provider supplies the closes [data], [_get_history] with
    [days >= 1] returns the last [days] of them (all of them when there are
    fewer), so never more than [days] points. *)
Theorem get_history_last_days (fetch : string -> option (list Q))
    (symbol : string) (days : Z) (data : list Q) :
  fetch symbol = Some data -> (1 <= days)%Z ->
  _get_history fetch symbol days = trailing (Z.to_nat days) data /\
  (Z.of_nat (length (_get_history fetch symbol days)) <= days)%Z.
Proof.
  intros Hf Hd. split; [|by apply get_history_length].
  unfold _get_history. rewrite Hf. by apply py_slice_from_last.
Qed.

Lemma get_history_last_days_witness :
  _get_history (serve ramp) "ACME" 2 = trailing (Z.to_nat 2) ramp /\
  (Z.of_nat (length (_get_history (serve ramp) "ACME" 2)) <= 2)%Z.
Proof.
  apply (get_history_last_days (serve ramp) "ACME" 2 ramp); [reflexivity|lia].
Defined.

(** X13.  [backtest] reads of its configuration only the first symbol,
    whether the strategy is 'momentum', and, when it is not, the entries
    'fast' and 'slow' of the params: two configurations that agree on these
    give the same result.  In particular every strategy other than
    'momentum' runs the crossover. *)
Theorem backtest_reads (sqrt : Q -> Q) (fetch : string -> option (list Q))
    (cfg cfg' : BacktestConfig) :
  head (symbols cfg) = head (symbols cfg') ->
  (strategy cfg = "momentum" <-> strategy cfg' = "momentum") ->
  (strategy cfg <> "momentum" ->
     params cfg !! "fast" = params cfg' !! "fast" /\
     params cfg !! "slow" = params cfg' !! "slow") ->
  backtest sqrt fetch cfg = backtest sqrt fetch cfg'.
Proof.
  intros Hsym Hstrat Hparams. unfold backtest.
  destruct (symbols cfg) as [|s l], (symbols cfg') as [|s' l']; try done.
  injection Hsym as <-.
  destruct (_get_history fetch s 400); [done|].
  destruct (String.eqb_spec (strategy cfg) "momentum") as [Hm|Hm],
           (String.eqb_spec (strategy cfg') "momentum") as [Hm'|Hm'];
    try tauto.
  destruct (Hparams Hm) as [-> ->]. done.
Qed.

Lemma backtest_reads_witness :
  backtest approx_sqrt (serve [1; 2; 3]) (config "ma_crossover" ∅)
  = backtest approx_sqrt (serve [1; 2; 3])
      {| symbols := ["ACME"; "OTHER"]; start := Some "2020-01-01";
         end_ := None; strategy := "breakout"; params := ∅ |}.
Proof.
  apply backtest_reads; [reflexivity|split; discriminate|done].
Defined.

(** X14.  A result of [backtest] has at most 400 points on its curve.  It
    has no metrics exactly when the curve is empty; otherwise the curve
    starts at 1 and [maxdd] is at most 0. *)
Theorem backtest_result_shape (sqrt : Q -> Q)
    (fetch : string -> option (list Q)) (cfg : BacktestConfig)
    (r : BacktestResult) :
  backtest sqrt fetch cfg = Some r ->
  (length (bt_equity r) <= 400)%nat /\
  (bt_metrics r = None <-> bt_equity r = []) /\
  forall m, bt_metrics r = Some m ->
    bt_equity r !! 0%nat = Some 1 /\ maxdd m <= 0.
Proof.
  unfold backtest. destruct (symbols cfg) as [|s l].
  { intros [= <-]. simpl. split; [lia|]. split; done. }
  pose proof (get_history_length fetch s 400 ltac:(lia)) as Hlen.
  destruct (_get_history fetch s 400) as [|c0 cl] eqn:Hh.
  { intros [= <-]. simpl. split; [lia|]. split; done. }
  set (closes := c0 :: cl) in *.
  assert (forall equity m,
            _backtest_ma_crossover sqrt closes
              (default 20%Z (params cfg !! "fast"))
              (default 50%Z (params cfg !! "slow")) = Some (equity, m) \/
            backtest_momentum sqrt closes = Some (equity, m) ->
            (length equity <= 400)%nat /\ equity <> [] /\
            equity !! 0%nat = Some 1 /\ maxdd m <= 0) as Hrun.
  { intros equity m H.
    assert (exists t d, equity = 1 :: t /\
              length t = (length closes - 1)%nat /\
              max_drawdown 1 equity = Some d /\ maxdd m = d)
      as (t & d & -> & Ht & Hd & ->).
    { destruct H as [H|H];
        [by apply ma_crossover_inv in H|by apply momentum_inv in H]. }
    split; [simpl in *; lia|]. split; [done|]. split; [done|].
    by apply (drawdown_of_curve (1 :: t) t). }
  destruct (String.eqb (strategy cfg) "momentum").
  - destruct (backtest_momentum sqrt closes) as [[equity m]|] eqn:E; [|done].
    intros [= <-]. simpl.
    destruct (Hrun equity m) as (H1 & H2 & H3 & H4); [by right|].
    split; [done|]. split; [split; done|]. by intros m' [= <-].
  - destruct (_backtest_ma_crossover _ _ _ _) as [[equity m]|] eqn:E; [|done].
    intros [= <-]. simpl.
    destruct (Hrun equity m) as (H1 & H2 & H3 & H4); [by left|].
    split; [done|]. split; [split; done|]. by intros m' [= <-].
Qed.

Lemma backtest_result_shape_witness :
  exists r,
    backtest approx_sqrt (serve [1; 2; 3]) (config "momentum" ∅) = Some r /\
    (length (bt_equity r) <= 400)%nat /\
    (bt_metrics r = None <-> bt_equity r = []) /\
    forall m, bt_metrics r = Some m ->
      bt_equity r !! 0%nat = Some 1 /\ maxdd m <= 0.
Proof.
  eexists. split; [vm_compute; reflexivity|].
  eapply (backtest_result_shape approx_sqrt (serve [1; 2; 3])
            (config "momentum" ∅)).
  vm_compute. reflexivity.
Defined.

(** ** More on the walk-forward evaluator *)

Section FoldLoop.

Variable sqrt : Q -> Q.
Variables (closes : list Q) (k fast slow fold_size : Z).

Lemma wf_loop_reported (xs : list nat) (results results' : list Fold) :
  Forall (λ i, (Z.of_nat i < k)%Z) xs ->
  Forall (fold_reported sqrt closes k fast slow fold_size) results ->
  py_for (wf_body sqrt closes (py_len closes) fold_size fast slow) xs results
    = Some results' ->
  Forall (fold_reported sqrt closes k fast slow fold_size) results'.
Proof.
  revert results. induction xs as [|i xs IH]; intros results Hxs Hres Hfor.
  - by injection Hfor as <-.
  - apply Forall_cons in Hxs as [Hi Hxs]. cbn [py_for] in Hfor.
    destruct (wf_body sqrt closes (py_len closes) fold_size fast slow
                results i) as [res1|] eqn:E; [|done].
    apply (IH res1); [done| |done].
    unfold wf_body in E.
    destruct (Z.ltb_spec
                (Z.min (py_len closes) ((Z.of_nat i + 1) * fold_size)
                 - Z.of_nat i * fold_size) (slow + 5));
      [by injection E as <-|].
    destruct (_backtest_ma_crossover _ _ _ _) as [[eq met]|] eqn:Hrun;
      [|done].
    injection E as <-. apply Forall_app. split; [done|].
    apply Forall_singleton. split; [by exists i|]. split; [simpl; lia|].
    by exists eq.
Qed.

Lemma wf_loop_ascending (m a : nat) (results results' : list Fold) :
  Forall (λ f, (fold f <= Z.of_nat a)%Z) results ->
  ascending results ->
  py_for (wf_body sqrt closes (py_len closes) fold_size fast slow)
         (seq a m) results = Some results' ->
  ascending results'.
Proof.
  revert a results. induction m as [|m IH]; intros a results Hle Hasc Hfor.
  - by injection Hfor as <-.
  - cbn [seq py_for] in Hfor.
    destruct (wf_body sqrt closes (py_len closes) fold_size fast slow
                results a) as [res1|] eqn:E; [|done].
    apply (IH (S a) res1); [| |done].
    + unfold wf_body in E. destruct (_ <? _)%Z.
      * injection E as <-. eapply Forall_impl; [done|]. simpl. lia.
      * destruct (_backtest_ma_crossover _ _ _ _) as [[eq met]|]; [|done].
        injection E as <-. apply Forall_app. split.
        -- eapply Forall_impl; [done|]. simpl. lia.
        -- apply Forall_singleton. simpl. lia.
    + unfold wf_body in E. destruct (_ <? _)%Z; [by injection E as <-|].
      destruct (_backtest_ma_crossover _ _ _ _) as [[eq met]|]; [|done].
      injection E as <-. intros i j f g Hij Hf Hg.
      apply lookup_app_Some in Hg as [Hg|[Hj Hg]].
      * rewrite lookup_app_l in Hf by (apply lookup_lt_Some in Hg; lia).
        by apply (Hasc i j).
      * destruct (j - length results)%nat eqn:Ej; [|done].
        cbn in Hg. injection Hg as <-.
        rewrite lookup_app_l in Hf by lia. simpl.
        rewrite Forall_lookup in Hle. specialize (Hle i f Hf). simpl in Hle.
        lia.
Qed.

End FoldLoop.

Lemma walkforward_on_inv (sqrt : Q -> Q) (closes : list Q) (k fast slow : Z)
    (w : WalkForward) :
  walkforward_on sqrt closes k fast slow = Some w ->
  Forall (fold_reported sqrt closes k fast slow
            (Z.max 50 (py_len closes / k))) (folds w) /\
  ascending (folds w) /\
  (folds w = [] -> avg_sharpe w = 0 /\ avg_maxdd w = 0) /\
  (folds w <> [] ->
     avg_sharpe w = py_sum (map (λ r, sharpe (fold_metrics r)) (folds w))
                    / inject_Z (py_len (folds w)) /\
     avg_maxdd w = py_sum (map (λ r, maxdd (fold_metrics r)) (folds w))
                   / inject_Z (py_len (folds w))).
Proof.
  unfold walkforward_on. destruct (_ <? _)%Z.
  { intros [= <-]. repeat split; done. }
  unfold py_floordiv. destruct (k =? 0)%Z; [done|]. cbn [mbind option_bind].
  destruct (py_for _ _ _) as [results|] eqn:Hfor; [|done].
  cbn [mbind option_bind].
  pose proof Hfor as Hasc.
  apply (wf_loop_reported sqrt closes k) in Hfor; [|apply range_below|done].
  apply (wf_loop_ascending sqrt closes) in Hasc;
    [|done|intros i j f g _ Hf; done].
  destruct results as [|r results].
  { intros [= <-]. repeat split; try done. }
  intros H. apply bind_Some in H as (s & Hs & H).
  apply bind_Some in H as (m & Hm & H). injection H as <-.
  apply py_truediv_inv in Hs as [_ ->]. apply py_truediv_inv in Hm as [_ ->].
  cbn [folds avg_sharpe avg_maxdd]. repeat split; try done.
Qed.

(** X15.  With a fold count of 0 and a history of at least [slow + 50] points
    [walkforward] raises, on the division [n // k]; with a negative fold
    count, or a shorter history, it returns the empty result. *)
Theorem walkforward_nonpositive_folds (sqrt : Q -> Q) (closes : list Q)
    (k fast slow : Z) :
  (k <= 0)%Z ->
  walkforward_on sqrt closes k fast slow
  = if (k =? 0)%Z && (slow + 50 <=? py_len closes)%Z then None
    else Some {| folds := []; avg_sharpe := 0; avg_maxdd := 0 |}.
Proof.
  intros Hk. unfold walkforward_on.
  destruct (Z.ltb_spec (py_len closes) (slow + 50)),
           (Z.leb_spec (slow + 50) (py_len closes)); try lia.
  - by rewrite andb_false_r.
  - rewrite andb_true_r. unfold py_floordiv.
    destruct (Z.eqb_spec k 0) as [|Hk0]; [done|]. cbn [mbind option_bind].
    replace (Z.to_nat k) with 0%nat by lia. done.
Qed.

Lemma walkforward_nonpositive_folds_witness :
  walkforward_on approx_sqrt (flat 105) 0 20 50 = None.
Proof.
  rewrite (walkforward_nonpositive_folds approx_sqrt (flat 105) 0 20 50); [|lia].
  reflexivity.
Defined.

(** X16.  The folds of a walk-forward result are in increasing fold number
    and do not overlap: a fold ends at or before the start of every later
    one. *)
Theorem walkforward_folds_disjoint (sqrt : Q -> Q) (closes : list Q)
    (k fast slow : Z) (w : WalkForward) :
  walkforward_on sqrt closes k fast slow = Some w ->
  forall i j f g, (i < j)%nat ->
    folds w !! i = Some f -> folds w !! j = Some g ->
    (fold f < fold g)%Z /\ (fold_end f <= fold_start g)%Z.
Proof.
  intros Hw i j f g Hij Hf Hg.
  destruct (walkforward_on_inv sqrt closes k fast slow w Hw)
    as (Hrep & Hasc & _).
  pose proof (Hasc i j f g Hij Hf Hg) as Hlt. split; [done|].
  rewrite Forall_lookup in Hrep.
  destruct (Hrep i f Hf) as ((a & _ & Ha & _ & Hend) & _).
  destruct (Hrep j g Hg) as ((b & _ & Hb & Hstart & _) & _).
  rewrite Hend, Hstart.
  assert ((Z.of_nat a + 1) * Z.max 50 (py_len closes / k)
          <= Z.of_nat b * Z.max 50 (py_len closes / k))%Z by nia.
  lia.
Qed.

Lemma walkforward_folds_disjoint_witness :
  exists w,
    walkforward_on approx_sqrt (flat 105) 2 5 20 = Some w /\
    forall i j f g, (i < j)%nat ->
      folds w !! i = Some f -> folds w !! j = Some g ->
      (fold f < fold g)%Z /\ (fold_end f <= fold_start g)%Z.
Proof.
  eexists. split; [vm_compute; reflexivity|].
  apply (walkforward_folds_disjoint approx_sqrt (flat 105) 2 5 20).
  vm_compute. reflexivity.
Defined.

(** X17.  Every fold of a walk-forward result is numbered within [1, k],
    spans [(fold-1) * fold_size, min n (fold * fold_size)) with at least
    [slow + 5] bars, and carries the metrics the crossover backtest returns
    on exactly those bars. *)
Theorem walkforward_fold_contents (sqrt : Q -> Q) (closes : list Q)
    (k fast slow : Z) (w : WalkForward) :
  walkforward_on sqrt closes k fast slow = Some w ->
  let fold_size := Z.max 50 (py_len closes / k) in
  forall f, f ∈ folds w ->
    (1 <= fold f <= k)%Z /\
    fold_start f = ((fold f - 1) * fold_size)%Z /\
    fold_end f = Z.min (py_len closes) (fold f * fold_size) /\
    (slow + 5 <= fold_end f - fold_start f)%Z /\
    exists equity,
      _backtest_ma_crossover sqrt
        (py_slice (fold_start f) (fold_end f) closes) fast slow
      = Some (equity, fold_metrics f).
Proof.
  intros Hw fold_size f Hf.
  destruct (walkforward_on_inv sqrt closes k fast slow w Hw) as (Hrep & _).
  rewrite Forall_forall in Hrep.
  destruct (Hrep f Hf) as ((a & Hak & Ha & Hstart & Hend) & Hlen & Hrun).
  split; [lia|]. split; [rewrite Hstart, Ha; f_equal; lia|].
  split; [by rewrite Hend, Ha|]. done.
Qed.

Lemma walkforward_fold_contents_witness :
  exists w,
    walkforward_on approx_sqrt (flat 105) 2 5 20 = Some w /\
    forall f, f ∈ folds w ->
      (1 <= fold f <= 2)%Z /\ (20 + 5 <= fold_end f - fold_start f)%Z.
Proof.
  eexists. split; [vm_compute; reflexivity|]. intros f Hf.
  destruct (walkforward_fold_contents approx_sqrt (flat 105) 2 5 20 _
              ltac:(vm_compute; reflexivity) f Hf) as (H1 & _ & _ & H2 & _).
  done.
Defined.

Lemma py_sum_nonpos (l : list Q) :
  Forall (λ x, x <= 0) l -> py_sum l <= 0.
Proof.
  induction l as [|x l IH] using rev_ind; intros Hl.
  - unfold py_sum. simpl. lra.
  - apply Forall_app in Hl as [Hl Hx]. rewrite Forall_singleton in Hx.
    rewrite py_sum_snoc. specialize (IH Hl). lra.
Qed.

(** X18.  In a walk-forward result every fold has a drawdown of at most 0,
    and so has the average. *)
Theorem walkforward_average_drawdown (sqrt : Q -> Q) (closes : list Q)
    (k fast slow : Z) (w : WalkForward) :
  walkforward_on sqrt closes k fast slow = Some w ->
  Forall (λ f, maxdd (fold_metrics f) <= 0) (folds w) /\ avg_maxdd w <= 0.
Proof.
  intros Hw.
  destruct (walkforward_on_inv sqrt closes k fast slow w Hw)
    as (Hrep & _ & Hempty & Havg).
  assert (Forall (λ f, maxdd (fold_metrics f) <= 0) (folds w)) as Hdd.
  { eapply Forall_impl; [exact Hrep|]. intros f (_ & _ & equity & Hrun).
    apply ma_crossover_inv in Hrun as (t & d & Ht & _ & Hd & ->).
    by apply (drawdown_of_curve equity t). }
  split; [done|]. destruct (folds w) as [|f l] eqn:E.
  - destruct Hempty as [_ ->]; [done|]. lra.
  - destruct Havg as [_ ->]; [done|].
    apply Qle_shift_div_r.
    + apply inject_Z_pos. unfold py_len. cbn [length]. lia.
    + rewrite Qmult_0_l. apply py_sum_nonpos. by apply Forall_fmap.
Qed.

Lemma walkforward_average_drawdown_witness :
  exists w,
    walkforward_on approx_sqrt (flat 105) 2 5 20 = Some w /\
    Forall (λ f, maxdd (fold_metrics f) <= 0) (folds w) /\ avg_maxdd w <= 0.
Proof.
  eexists. split; [vm_compute; reflexivity|].
  apply (walkforward_average_drawdown approx_sqrt (flat 105) 2 5 20).
  vm_compute. reflexivity.
Defined.

(** ** More on the direction heuristic *)

Lemma predict_unfold (fetch : string -> option (list Q)) (symbol : string)
    (horizon : Z) (closes : list Q) (c : Q) :
  _get_history fetch symbol 200 = closes -> last closes = Some c ->
  exists s20 s50,
    s20 == latest_sma closes 20 /\ s50 == latest_sma closes 50 /\
    let direction := if Qle_bool s50 s20 then 1%Z else (-1)%Z in
    predict fetch symbol horizon
    = Some {| pr_symbol := symbol; pr_horizon := horizon;
              pr_prediction :=
                Some (c * (1 + 0.002 * inject_Z direction
                               * inject_Z (Z.max 1 (Z.min 5 horizon))));
              pr_confidence := if (direction =? 1)%Z then 0.55 else 0.45;
              pr_note := None; pr_model := Some "sma_crossover" |}.
Proof.
  intros Hhist Hlast.
  assert (closes <> []) as Hne by (by intros ->).
  destruct (sma_latest closes 20) as (s20 & Hs20 & Hx20); [lia|done|].
  destruct (sma_latest closes 50) as (s50 & Hs50 & Hx50); [lia|done|].
  exists s20, s50. split; [done|]. split; [done|].
  unfold predict. rewrite Hhist, Hs20, Hs50, Hlast.
  by destruct closes.
Qed.




(** X20.  With at most 20 closes both averages are the mean of the whole
    history, so [predict] always points up: the prediction is the last close
    times [1 + 0.002 * h], with confidence 0.55. *)
Theorem predict_short_history_up (fetch : string -> option (list Q))
    (symbol : string) (horizon : Z) (closes : list Q) (c : Q) :
  _get_history fetch symbol 200 = closes -> last closes = Some c ->
  (length closes <= 20)%nat ->
  exists p x,
    predict fetch symbol horizon = Some p /\ pr_prediction p = Some x /\
    x == c * (1 + 0.002 * inject_Z (clamp 1 5 horizon)) /\
    pr_confidence p = 0.55.
Proof.
  intros Hhist Hlast Hlen.
  destruct (predict_unfold fetch symbol horizon closes c Hhist Hlast)
    as (s20 & s50 & H20 & H50 & ->).
  assert (Qle_bool s50 s20 = true) as ->.
  { apply Qle_bool_iff. rewrite H20, H50. unfold latest_sma.
    rewrite (sma_spec_warmup closes 20 50); [lra|..].
    all: destruct closes; [done|]; simpl in *; lia. }
  assert (Z.max 1 (Z.min 5 horizon) = clamp 1 5 horizon) as ->.
  { unfold clamp. destruct (Z.ltb_spec horizon 1), (Z.ltb_spec 5 horizon); lia. }
  eexists _, _. split; [done|]. split; [done|]. split; [|done].
  change (inject_Z 1) with 1. ring.
Qed.

Lemma predict_short_history_up_witness :
  exists p x,
    predict (serve [12; 11; 10]) "ACME" 3 = Some p /\
    pr_prediction p = Some x /\
    x == 10 * (1 + 0.002 * inject_Z (clamp 1 5 3)) /\
    pr_confidence p = 0.55.
Proof.
  apply (predict_short_history_up (serve [12; 11; 10]) "ACME" 3 [12; 11; 10] 10);
    [reflexivity|reflexivity|simpl; lia].
Defined.

(** X21.  [predict] uses the horizon only through its clamp to [1, 5]: the
    prediction and the confidence for a horizon are those for the clamped
    horizon. *)
Theorem predict_horizon_clamped (fetch : string -> option (list Q))
    (symbol : string) (horizon : Z) :
  pr_prediction <$> predict fetch symbol horizon
  = pr_prediction <$> predict fetch symbol (clamp 1 5 horizon) /\
  pr_confidence <$> predict fetch symbol horizon
  = pr_confidence <$> predict fetch symbol (clamp 1 5 horizon).
Proof.
  assert (Z.max 1 (Z.min 5 (clamp 1 5 horizon)) = Z.max 1 (Z.min 5 horizon))
    as Hc.
  { unfold clamp. destruct (Z.ltb_spec horizon 1), (Z.ltb_spec 5 horizon); lia. }
  unfold predict. rewrite Hc.
  destruct (_get_history fetch symbol 200) as [|c0 cl]; [done|].
  destruct (_sma (c0 :: cl) 20 ≫= last); [|done].
  destruct (_sma (c0 :: cl) 50 ≫= last); [|done].
  cbn [mbind option_bind]. by destruct (last (c0 :: cl)).
Qed.

(** ** The feature extractor *)

Lemma returns_over_total (closes : list Q) (k : nat) :
  exists r, returns_over closes k = Some r /\
            length r = Nat.max k (length closes).
Proof.
  unfold returns_over.
  destruct (mapM (λ i : nat, rel_change closes i k)
              (py_range k (length closes))) as [rest|] eqn:E.
  2:{ apply mapM_None in E. apply Exists_exists in E as (i & Hi & Hnone).
      unfold py_range in Hi. apply elem_of_seq in Hi.
      destruct (rel_change_total closes i k) as (c & p & _ & _ & Hr); [lia|].
      congruence. }
  eexists. split; [done|]. apply length_mapM in E. unfold py_range in E.
  rewrite length_seq in E. rewrite length_app, length_replicate. lia.
Qed.







(** X23.  For negative [days] whose magnitude is at least the length of a
    non-empty history, [features] raises: the volatility is the deviation
    of an empty slice of the 1-bar returns. *)
Theorem features_negative_days (sqrt : Q -> Q)
    (fetch : string -> option (list Q)) (symbol : string) (days : Z) :
  (days < 0)%Z ->
  _get_history fetch symbol 60 <> [] ->
  (py_len (_get_history fetch symbol 60) <= - days)%Z ->
  features sqrt fetch symbol days = None.
Proof.
  intros Hd Hne Hlen. unfold features.
  replace (Z.max 60 (days + 60)) with 60%Z by lia.
  set (closes := _get_history fetch symbol 60) in *.
  destruct closes as [|c0 cl] eqn:Hc; [done|]. rewrite <- Hc.
  assert (1 <= py_len closes)%Z as Hlen1.
  { unfold py_len. rewrite Hc. cbn [length]. lia. }
  rewrite <- Hc in Hlen.
  destruct (returns_over_total closes 1) as (r1 & -> & Hr1).
  destruct (returns_over_total closes 5) as (r5 & -> & Hr5).
  destruct (returns_over_total closes 20) as (r20 & -> & Hr20).
  cbn [mbind option_bind].
  destruct (Z.leb_spec days (py_len r1)); [|unfold py_len in *; lia].
  assert (py_slice_from (- days) r1 = []) as ->; [|done].
  unfold py_slice_from, slice_bound. apply drop_ge. unfold py_len in *.
  destruct (Z.ltb_spec (- days) 0); lia.
Qed.

Lemma features_negative_days_witness :
  features approx_sqrt (serve [1; 2; 4]) "ACME" (-3) = None.
Proof.
  apply (features_negative_days approx_sqrt (serve [1; 2; 4]) "ACME" (-3));
    [lia|done|vm_compute; discriminate].
Defined.

(** ** Warm-up of the momentum strategy and degenerate series *)

Lemma momentum_signal_warmup (closes mom : list Q) (i : nat) (x : Q) :
  momentum_signal closes = Some mom -> (i < 20)%nat ->
  mom !! i = Some x -> x = 0.
Proof.
  unfold momentum_signal. intros Hm Hi Hx.
  assert (i < length closes)%nat as Hlen.
  { apply length_mapM in Hm. unfold py_range in Hm.
    rewrite length_seq in Hm. apply lookup_lt_Some in Hx. lia. }
  assert (py_range 0 (length closes) !! i = Some i) as Hseq.
  { unfold py_range. rewrite lookup_seq_lt by lia. done. }
  pose proof (mapM_lookup _ _ _ i i x Hm Hseq Hx) as Hf.
  revert Hf. cbv beta. destruct (Nat.leb_spec 20 i); [lia|].
  by intros [= <-].
Qed.

Lemma momentum_loop_warmup (closes mom : list Q) (m : nat) (pos : Z)
    (equity : list Q) :
  (forall i x, (i < 20)%nat -> mom !! i = Some x -> x = 0) ->
  py_for (momentum_body closes mom) (seq 1 m) (0%Z, [1]) = Some (pos, equity) ->
  length equity = S m /\
  forall i e, (i < 20)%nat -> equity !! i = Some e -> e == 1.
Proof.
  intros Hmom. revert pos equity.
  induction m as [|m IH]; intros pos equity Hfor.
  - injection Hfor as <- <-. split; [done|]. intros i e _ He.
    destruct i; [|done]. cbn in He. by injection He as <-.
  - rewrite seq_S, py_for_app in Hfor.
    apply bind_Some in Hfor as ([pos1 eq1] & Hfor & Hstep).
    destruct (IH pos1 eq1 Hfor) as [Hlen Hflat].
    cbn [py_for] in Hstep. unfold momentum_body, equity_append in Hstep.
    destruct (mom !! (1 + m)%nat) as [x|] eqn:Hx; [|done].
    cbn [mbind option_bind] in Hstep.
    destruct (rel_change closes (1 + m) 1) as [r|]; [|done].
    cbn [mbind option_bind] in Hstep.
    destruct (last eq1) as [e1|] eqn:He1; [|done].
    cbn [mbind option_bind] in Hstep. injection Hstep as <- <-.
    split; [rewrite length_app; simpl; lia|].
    intros i e Hi He. apply lookup_app_Some in He as [He|[Hge He]].
    + by apply (Hflat i).
    + rewrite Hlen in Hge, He.
      assert (i = S m) as -> by (apply lookup_lt_Some in He; simpl in He; lia).
      rewrite Nat.sub_diag in He. cbn in He. injection He as <-.
      rewrite (Hmom (1 + m)%nat x) by (done || lia).
      change (ltb 0 0) with false. change (inject_Z 0) with 0.
      rewrite last_lookup, Hlen in He1.
      rewrite (Hflat m e1) by (done || lia). ring.
Qed.

(** X24.  The momentum strategy stays out of the market for the first 20
    bars, where the 20-bar momentum is taken as 0: every entry of the curve
    at an index below 20 equals 1. *)
Theorem momentum_flat_warmup (sqrt : Q -> Q) (closes equity : list Q)
    (m : Metrics) :
  backtest_momentum sqrt closes = Some (equity, m) ->
  forall i e, (i < 20)%nat -> equity !! i = Some e -> e == 1.
Proof.
  unfold backtest_momentum. intros H.
  destruct (momentum_signal closes) as [mom|] eqn:Hmom; [|done].
  cbn [mbind option_bind] in H.
  destruct (py_for _ _ _) as [[pos eq]|] eqn:Hfor; [|done].
  cbn [mbind option_bind] in H.
  destruct (curve_returns eq) as [returns|]; [|done].
  cbn [mbind option_bind] in H.
  destruct (sharpe_ratio sqrt returns) as [s|]; [|done].
  cbn [mbind option_bind] in H.
  destruct (max_drawdown 1 eq) as [d|]; [|done]. injection H as <- _.
  apply (momentum_loop_warmup closes mom (length closes - 1) pos eq);
    [|done].
  intros i x Hi Hx. by apply (momentum_signal_warmup closes mom i).
Qed.

Lemma momentum_flat_warmup_witness :
  exists equity m,
    backtest_momentum approx_sqrt [1; 3; 2] = Some (equity, m) /\
    forall i e, (i < 20)%nat -> equity !! i = Some e -> e == 1.
Proof.
  eexists _, _. split; [vm_compute; reflexivity|].
  eapply (momentum_flat_warmup approx_sqrt [1; 3; 2]).
  vm_compute. reflexivity.
Defined.

(** X25.  On a series of at most one point the strategies trade nothing:
    the curve is the single entry 1, with a Sharpe ratio of 0 and a drawdown
    of 0.  The crossover engine returns this also for the empty series, a
    curve longer than its input. *)
Theorem backtest_degenerate_series (sqrt : Q -> Q) (closes : list Q)
    (fast slow : Z) :
  (length closes <= 1)%nat -> (1 <= fast)%Z -> (1 <= slow)%Z ->
  _backtest_ma_crossover sqrt closes fast slow
    = Some ([1], {| sharpe := 0; maxdd := 0 |}) /\
  (closes <> [] ->
   backtest_momentum sqrt closes
     = Some ([1], {| sharpe := 0; maxdd := 0 |})).
Proof.
  intros Hlen Hfast Hslow.
  destruct (sma_total fast Hfast closes) as (fasts & Hfs & _).
  destruct (sma_total slow Hslow closes) as (slows & Hss & _).
  unfold _backtest_ma_crossover. rewrite Hfs, Hss.
  destruct closes as [|c [|c' cl]]; [| |simpl in Hlen; lia];
    split; done.
Qed.

Lemma backtest_degenerate_series_witness :
  _backtest_ma_crossover approx_sqrt [7] 20 50
    = Some ([1], {| sharpe := 0; maxdd := 0 |}) /\
  backtest_momentum approx_sqrt [7]
    = Some ([1], {| sharpe := 0; maxdd := 0 |}).
Proof.
  destruct (backtest_degenerate_series approx_sqrt [7] 20 50) as [Hma Hmom];
    [simpl; lia|lia|lia|].
  split; [exact Hma|by apply Hmom].
Defined.
